(** * node-restaurants-app-mongoose: the request handlers and the server
      lifecycle of [server.js], embedded and verified.

    The file follows [server.js] top to bottom:
    - [Js]: the few JavaScript notions the handlers use (values, truthiness,
      string coercion, [===], the [in] operator, property access);
    - [State]: the state-passing monad of the handlers and the lifecycle;
    - [Store]: the document-store client the handlers call (an external
      collaborator), as an executable reference model over a finite map;
    - [Http]: the response object, the console, and the monad that threads
      them with the store through a handler;
    - [Server]: the route handlers, one definition per [app.<verb>] call;
    - [Lifecycle]: [runServer] and [closeServer] as functions from the
      outcomes reported by the store driver and the socket to the trace of
      calls, callbacks and promise settlements;
    - [Sample]: the restaurant of the specification's end-to-end example and
      a few requests, used to run the handlers;
    - [Stated]: two policies in the specification's own words, to be
      compared with what the code does;
    - [Session]: requests, and a start and a stop, one after the other.
    The theorems come last. *)

From stdpp Require Import gmap strings list fin_maps pretty.

Open Scope string_scope.

#[local] Set Warnings "-register-all".

(* ===================================================================== *)
(** ** JavaScript values *)
(* ===================================================================== *)

Module Js.

(** What [JSON.parse] can produce, plus [undefined] (the result of reading
    a missing property). A number is kept as the text JavaScript prints for
    it: the handlers never compute with numbers, they only test them for
    truthiness and splice them into a message. *)
Inductive value : Type :=
  | VUndefined
  | VNull
  | VBool (b : bool)
  | VNum (printed : string)
  | VStr (s : string)
  | VArr (items : list value)
  | VObj (props : list (string * value)).

(** A parsed JSON object: the shape of [req.body] and of a stored document. *)
Abbreviation object := (gmap string value).

(** ToBoolean. *)
Definition truthy (v : value) : bool :=
  match v with
  | VUndefined | VNull => false
  | VBool b => b
  | VNum p => negb (String.eqb p "0" || String.eqb p "NaN")
  | VStr s => negb (String.eqb s "")
  | VArr _ | VObj _ => true
  end.

(** The elements of an array as [Array.prototype.join] prints them, given
    how a value prints: [null] and [undefined] print as the empty string;
    [None] when printing an element throws. *)
Definition print_items (print : value -> option string)
  : list value -> option (list string) :=
  fix go items :=
    match items with
    | [] => Some []
    | x :: rest =>
        match (match x with
               | VUndefined | VNull => Some ""
               | _ => print x
               end), go rest with
        | Some s, Some ss => Some (s :: ss)
        | _, _ => None
        end
    end.

(** ToString, as applied by [+] with a string operand; [None] when the
    conversion throws a [TypeError]. A parsed JSON object has no callable
    property of its own, so when it has a key [toString] of its own that
    key hides [Object.prototype.toString] and the conversion to a primitive
    finds nothing to call (the inherited [valueOf] returns the object
    itself): it throws. Without that key the object prints as
    ["[object Object]"]. An array prints its elements joined by commas and
    throws when printing an element does. *)
Fixpoint to_string (v : value) : option string :=
  match v with
  | VUndefined => Some "undefined"
  | VNull => Some "null"
  | VBool true => Some "true"
  | VBool false => Some "false"
  | VNum p => Some p
  | VStr s => Some s
  | VArr items => String.concat "," <$> print_items to_string items
  | VObj props =>
      if decide ("toString" ∈ props.*1) then None
      else Some "[object Object]"
  end.

(** The values whose conversion to a string throws, said directly: an
    object with a key [toString] of its own, and an array that holds such
    a value. *)
Inductive unprintable : value -> Prop :=
  | unprintable_object props :
      "toString" ∈ props.*1 -> unprintable (VObj props)
  | unprintable_array items x :
      x ∈ items -> unprintable x -> unprintable (VArr items).

Definition cannot_convert : string :=
  "Cannot convert object to primitive value".

(** [a === b]. Arrays and objects compare by reference; the two sides met
    in [server.js] never share one, so they compare unequal. *)
Definition strict_eq (a b : value) : bool :=
  match a, b with
  | VUndefined, VUndefined => true
  | VNull, VNull => true
  | VBool x, VBool y => Bool.eqb x y
  | VNum x, VNum y => String.eqb x y && negb (String.eqb x "NaN")
  | VStr x, VStr y => String.eqb x y
  | _, _ => false
  end.

(** [key in obj]. *)
Definition has_key (key : string) (obj : object) : bool :=
  match obj !! key with
  | Some _ => true
  | None => false
  end.

(** [obj[key]], [undefined] when the key is missing. *)
Definition get (obj : object) (key : string) : value :=
  default VUndefined (obj !! key).

Definition is_undefined (v : value) : bool :=
  match v with
  | VUndefined => true
  | _ => false
  end.

End Js.

Export Js.

(* ===================================================================== *)
(** ** Errors, promise outcomes *)
(* ===================================================================== *)

(** The errors [server.js] can see. [CastError], [DuplicateKey] and
    [StoreFault] come from the store client, [SocketError] from the
    listening socket; [TypeError] is raised by the JavaScript runtime
    inside a callback. *)
Inductive error : Type :=
  | CastError (id : string)
  | DuplicateKey (id : string)
  | StoreFault (detail : string)
  | SocketError (code : string)
  | TypeError (detail : string).

(** How a promise settles. *)
Inductive outcome (A : Type) : Type :=
  | Resolved (x : A)
  | Rejected (e : error).

Arguments Resolved {A} x.
Arguments Rejected {A} e.

(** The error of a rejected promise. *)
Definition rejection {A} (r : outcome A) : option error :=
  match r with
  | Resolved _ => None
  | Rejected e => Some e
  end.

(* ===================================================================== *)
(** ** State passing *)
(* ===================================================================== *)

(** A computation that reads and updates a state [S] and returns an [A];
    [x ← c; k] and [c;; k] sequence two of them. *)
Definition State (S A : Type) : Type := S -> A * S.

#[export] Instance State_ret {S} : MRet (State S) := fun A x s => (x, s).
#[export] Instance State_bind {S} : MBind (State S) :=
  fun A B f m s => let (x, s') := m s in f x s'.

(* ===================================================================== *)
(** ** The document store *)
(* ===================================================================== *)

Module Store.

(** [models.js], which builds the [Restaurant] model on the store client, is
    not among the sources, and the client itself is a library. The
    operations below follow the Document Store Client of the specification
    (find, find-by-id, create, update-by-id, delete-by-id) and the comments
    of [server.js] on them.

    The collection: documents by identifier. A document carries its own
    identifier in the field [_id]. *)
Abbreviation collection := (gmap string object).

(** What [server.js] does not determine about one call to the store:
    - [castable]: which strings the driver accepts as identifiers (a string
      that is not one makes a by-id query reject with a cast error);
    - [fault]: whether the store fails on this call for a reason of its own
      (connection lost, schema validation, ...);
    - [fresh_id]: the identifier the store assigns to a created document. *)
Record env : Type := {
  castable : string -> bool;
  fault : option string;
  fresh_id : string
}.

(** The calls [server.js] makes on the [Restaurant] model. *)
Inductive query : Type :=
  | Find (limit : nat)
  | FindById (id : string)
  | Create (fields : object)
  | FindByIdAndUpdate (id : string) (set : object)
  | FindByIdAndRemove (id : string).

(** Modelled from the spec: how a by-id query fails. Any store fault, and
    a path value that is no identifier, rejects the query; "not found" is
    no rejection of the store. *)
Definition by_id_rejection (e : env) (id : string) : option error :=
  match fault e with
  | Some detail => Some (StoreFault detail)
  | None => if castable e id then None else Some (CastError id)
  end.

(** Modelled from the spec: find with a limit,
    [Restaurant.find().limit(n).exec()]. *)
Definition find (e : env) (n : nat) (c : collection)
  : outcome (list object) * collection :=
  match fault e with
  | Some detail => (Rejected (StoreFault detail), c)
  | None => (Resolved (take n ((map_to_list c).*2)), c)
  end.

(** Modelled from the spec: find-by-id, [Restaurant.findById(id).exec()].
    It resolves with [null] when no document has that identifier. *)
Definition findById (e : env) (id : string) (c : collection)
  : outcome (option object) * collection :=
  match by_id_rejection e id with
  | Some err => (Rejected err, c)
  | None => (Resolved (c !! id), c)
  end.

(** Modelled from the spec: create, [Restaurant.create(fields)]. Properties
    whose value is [undefined] are not stored; the store assigns the
    identifier, and refuses one that is taken. *)
Definition create (e : env) (fields : object) (c : collection)
  : outcome object * collection :=
  match fault e with
  | Some detail => (Rejected (StoreFault detail), c)
  | None =>
      match c !! fresh_id e with
      | Some _ => (Rejected (DuplicateKey (fresh_id e)), c)
      | None =>
          let doc :=
            <["_id" := VStr (fresh_id e)]>
              (filter (fun kv => is_undefined kv.2 = false) fields) in
          (Resolved doc, <[fresh_id e := doc]> c)
      end
  end.

(** Modelled from the spec: update-by-id,
    [Restaurant.findByIdAndUpdate(id, {$set: set}).exec()]. Every key/value
    pair of [set] is written into the document ("that's what [$set] does",
    says [server.js]), the other fields stay; it resolves with the document
    as it was, or with [null] when there is none. *)
Definition findByIdAndUpdate (e : env) (id : string) (set : object)
  (c : collection) : outcome (option object) * collection :=
  match by_id_rejection e id with
  | Some err => (Rejected err, c)
  | None =>
      match c !! id with
      | Some doc => (Resolved (Some doc), <[id := set ∪ doc]> c)
      | None => (Resolved None, c)
      end
  end.

(** Modelled from the spec: delete-by-id,
    [Restaurant.findByIdAndRemove(id).exec()]. It resolves with the removed
    document, or with [null] when there is none. *)
Definition findByIdAndRemove (e : env) (id : string) (c : collection)
  : outcome (option object) * collection :=
  match by_id_rejection e id with
  | Some err => (Rejected err, c)
  | None => (Resolved (c !! id), delete id c)
  end.

End Store.

Export Store.

(* ===================================================================== *)
(** ** The response object, the console, and the handler monad *)
(* ===================================================================== *)

Module Http.

(** What [console.error] is given: a message or an error object. *)
Inductive logged : Type :=
  | LogText (message : string)
  | LogError (err : error).

(** The JSON bodies the handlers write. *)
Inductive json : Type :=
  | Message (message : string)            (* {message: ...} *)
  | Restaurant (repr : object)            (* one representation *)
  | Restaurants (reprs : list object).    (* {restaurants: [...]} *)

Inductive payload : Type :=
  | NoBody
  | PlainText (text : string)
  | Json (j : json).

(** What a handler does, in the order it does it. [StoreCall] is a call on
    the [Restaurant] model, with the error it rejected with, if it did.
    [ResWrite] is a write of status and body on [res]; only the first one
    of a request reaches the client, later ones find the headers already
    sent. [Uncaught] is an exception thrown by the handler's own
    statements, outside any promise: the handler stops there, having
    written nothing more, and the answer is left to the framework's error
    handling, which is not [server.js]'s. *)
Inductive event : Type :=
  | ConsoleError (l : logged)
  | StoreCall (q : query) (rejected : option error)
  | ResWrite (status : nat) (body : payload)
  | Uncaught (err : error).

Record world : Type := {
  db : collection;
  trace : list event
}.

(** A computation over the store, the console and [res]. *)
Abbreviation M := (State world).

Definition emit (ev : event) : M unit :=
  fun w => (tt, {| db := db w; trace := trace w ++ [ev] |}).

Definition console_error (l : logged) : M unit := emit (ConsoleError l).

(** [res.status(code).json(body)]; [res.json(body)] is the same with the
    default status 200. *)
Definition res_json (code : nat) (body : json) : M (outcome unit) :=
  emit (ResWrite code (Json body));; mret (Resolved tt).

(** [res.status(code).send(text)] *)
Definition res_send (code : nat) (text : string) : M (outcome unit) :=
  emit (ResWrite code (PlainText text));; mret (Resolved tt).

(** [res.status(code).end()] *)
Definition res_end (code : nat) : M (outcome unit) :=
  emit (ResWrite code NoBody);; mret (Resolved tt).

(** A call on the [Restaurant] model: the call is recorded, the store
    answers and moves to its next state. *)
Definition call {A} (q : query)
  (op : collection -> outcome A * collection) : M (outcome A) :=
  fun w =>
    let (r, c) := op (db w) in
    (r, {| db := c; trace := trace w ++ [StoreCall q (rejection r)] |}).

(** [throw e] inside a promise callback. *)
Definition throw {A} (e : error) : M (outcome A) := mret (Rejected e).

(** An exception leaves the handler. *)
Definition uncaught (e : error) : M unit := emit (Uncaught e).

(** [p.then(f)]: [f] runs on the value [p] resolved with; a rejection of
    [p], like an exception in [f], rejects the result. *)
Definition then_ {A B} (p : M (outcome A)) (f : A -> M (outcome B))
  : M (outcome B) :=
  r ← p;
  match r with
  | Resolved x => f x
  | Rejected e => mret (Rejected e)
  end.

(** [p.catch(g)] *)
Definition catch_ {A} (p : M (outcome A)) (g : error -> M (outcome A))
  : M (outcome A) :=
  r ← p;
  match r with
  | Resolved x => mret (Resolved x)
  | Rejected e => g e
  end.

(** Express ignores what a handler returns. *)
Definition forget {A} (p : M A) : M unit := p;; mret tt.

(** The response the handler gives the client: the first write on [res];
    none when the handler wrote nothing. *)
Fixpoint client_response (t : list event) : option (nat * payload) :=
  match t with
  | [] => None
  | ResWrite code body :: _ => Some (code, body)
  | _ :: rest => client_response rest
  end.

(** The writes on [res], the store calls and the console lines of a trace. *)
Definition res_writes (t : list event) : list (nat * payload) :=
  omap (fun ev => match ev with
                  | ResWrite code body => Some (code, body)
                  | _ => None
                  end) t.

Definition store_calls (t : list event) : list query :=
  omap (fun ev => match ev with StoreCall q _ => Some q | _ => None end) t.

Definition console_lines (t : list event) : list logged :=
  omap (fun ev => match ev with ConsoleError l => Some l | _ => None end) t.

(** The errors the store calls of a trace rejected with. *)
Definition store_rejections (t : list event) : list error :=
  omap (fun ev => match ev with StoreCall _ rejected => rejected | _ => None end) t.

End Http.

Export Http.

(* ===================================================================== *)
(** ** server.js: the route handlers *)
(* ===================================================================== *)

Module Server.

(** Modelled from the spec: [models.js] (the [Restaurant] schema and its
    [apiRepr] instance method) is not among the sources. Following the
    Representation Mapper of the specification, [apiRepr] exposes exactly
    the fields id, name, borough, cuisine, address and grades of the stored
    document, the identifier being read from [_id]; a field the document
    lacks is left out, as [res.json] drops [undefined] properties. *)
Definition apiRepr (doc : object) : object :=
  list_to_map
    (omap (fun '(out, field) => (fun v => (out, v)) <$> doc !! field)
       [("id", "_id"); ("name", "name"); ("borough", "borough");
        ("cuisine", "cuisine"); ("address", "address");
        ("grades", "grades")]).

Definition internal_server_error : json := Message "Internal server error".

(** [app.get('/restaurants', ...)] *)
Definition get_restaurants (e : env) : M unit :=
  forget
    (catch_
       (then_ (call (Find 10) (find e 10))
          (fun restaurants => res_json 200 (Restaurants (apiRepr <$> restaurants))))
       (fun err =>
          console_error (LogError err);;
          res_json 500 internal_server_error)).

(** [app.get('/restaurants/:id', ...)]. When [findById] resolves with
    [null], [restaurant.apiRepr()] throws inside the [then] callback and the
    [catch] callback receives that [TypeError]. *)
Definition get_restaurant (e : env) (id : string) : M unit :=
  forget
    (catch_
       (then_ (call (FindById id) (findById e id))
          (fun restaurant =>
             match restaurant with
             | Some doc => res_json 200 (Restaurant (apiRepr doc))
             | None => throw (TypeError "Cannot read property 'apiRepr' of null")
             end))
       (fun err =>
          console_error (LogError err);;
          res_json 500 internal_server_error)).

Definition requiredFields : list string := ["name"; "borough"; "cuisine"].

Definition missing_message (field : string) : string :=
  "Missing `" +:+ field +:+ "` in request body".

(** The [for] loop of the POST handler over [requiredFields]; the result
    says whether the handler returned from inside the loop. *)
Fixpoint check_required (fields : list string) (body : object) : M bool :=
  match fields with
  | [] => mret false
  | field :: rest =>
      if negb (has_key field body) then
        let message := missing_message field in
        console_error (LogText message);;
        res_send 400 message;;
        mret true
      else check_required rest body
  end.

(** The object literal given to [Restaurant.create]. *)
Definition create_fields (body : object) : object :=
  list_to_map
    [("name", get body "name"); ("borough", get body "borough");
     ("cuisine", get body "cuisine"); ("grades", get body "grades");
     ("address", get body "address")].

(** [app.post('/restaurants', ...)] *)
Definition post_restaurants (e : env) (body : object) : M unit :=
  returned ← check_required requiredFields body;
  if (returned : bool) then mret tt
  else
    forget
      (catch_
         (then_ (call (Create (create_fields body)) (create e (create_fields body)))
            (fun restaurant => res_json 201 (Restaurant (apiRepr restaurant))))
         (fun err =>
            console_error (LogError err);;
            res_json 500 internal_server_error)).

Definition updateableFields : list string :=
  ["name"; "borough"; "cuisine"; "address"].

(** The [forEach] of the PUT handler, started from [toUpdate = {}]. *)
Definition toUpdate (body : object) : object :=
  foldl (fun acc field =>
           if has_key field body then <[field := get body field]> acc
           else acc)
    ∅ updateableFields.

(** The message of the identifier check; [None] when the concatenation
    throws, which it does when [req.body.id] cannot be converted to a
    string. *)
Definition mismatch_message (id : string) (body : object) : option string :=
  printed ← to_string (get body "id");
  Some ("Request path id (" +:+ id +:+ ") and request body id " +:+
        ("(" +:+ printed +:+ ") must match")).

(** The condition of the [if] that opens the PUT handler. *)
Definition ids_match (id : string) (body : object) : bool :=
  truthy (VStr id) && truthy (get body "id")
  && strict_eq (VStr id) (get body "id").

(** The [if] that opens the PUT handler. The message is built first: when
    that throws, nothing is logged or written and the exception leaves the
    handler. *)
Definition check_ids (id : string) (body : object) : M (outcome unit) :=
  if negb (ids_match id body) then
    match mismatch_message id body with
    | Some message =>
        console_error (LogText message);;
        res_json 400 (Message message)
    | None => throw (TypeError cannot_convert)
    end
  else mret (Resolved tt).

(** [app.put('/restaurants/:id', ...)]. The [if] has no [return]: after
    the 400 the handler goes on to the update. *)
Definition put_restaurant (e : env) (id : string) (body : object) : M unit :=
  checked ← check_ids id body;
  match checked with
  | Rejected err => uncaught err
  | Resolved _ =>
      forget
        (catch_
           (then_ (call (FindByIdAndUpdate id (toUpdate body))
                     (findByIdAndUpdate e id (toUpdate body)))
              (fun restaurant => res_end 204))
           (fun err => res_json 500 internal_server_error))
  end.

(** [app.delete('/restaurants/:id', ...)] *)
Definition delete_restaurant (e : env) (id : string) : M unit :=
  forget
    (catch_
       (then_ (call (FindByIdAndRemove id) (findByIdAndRemove e id))
          (fun restaurant => res_end 204))
       (fun err => res_json 500 internal_server_error)).

(** [app.use('*', ...)] *)
Definition not_found : M unit :=
  forget (res_json 404 (Message "Not Found")).

(** A request after routing and body parsing. *)
Inductive request : Type :=
  | GET_restaurants
  | GET_restaurant (id : string)
  | POST_restaurants (body : object)
  | PUT_restaurant (id : string) (body : object)
  | DELETE_restaurant (id : string)
  | Unmatched.

Definition app (e : env) (req : request) : M unit :=
  match req with
  | GET_restaurants => get_restaurants e
  | GET_restaurant id => get_restaurant e id
  | POST_restaurants body => post_restaurants e body
  | PUT_restaurant id body => put_restaurant e id body
  | DELETE_restaurant id => delete_restaurant e id
  | Unmatched => not_found
  end.

(** One request served on a collection: the events of the request and the
    collection afterwards. *)
Definition serve (e : env) (req : request) (c : collection) : world :=
  (app e req {| db := c; trace := [] |}).2.

End Server.

Export Server.

(* ===================================================================== *)
(** ** server.js: runServer and closeServer *)
(* ===================================================================== *)

Module Lifecycle.

(** [config.js] is not among the sources; its two constants are taken as
    parameters. *)
Record config : Type := {
  PORT : N;
  DATABASE_URL : string
}.

(** What the store driver and the operating system answer during one run:
    the error given to the [mongoose.connect] callback, the error of the
    server's ['error'] event (none: the listen callback runs), the rejection
    of [mongoose.disconnect()], the error given to the [server.close]
    callback. *)
Record outside : Type := {
  connect_err : option error;
  listen_err : option error;
  disconnect_err : option error;
  close_err : option error
}.

(** Calls made by [server.js], callbacks it receives, and settlements of
    the promise it returned, in order. *)
Inductive step : Type :=
  | Connect (url : string)
  | Connected (err : option error)
  | Listen (port : N)
  | Listening
  | ListenError (err : error)
  | Disconnect
  | Disconnected (err : option error)
  | Close
  | Closed (err : option error)
  | ConsoleLog (line : string)
  | Settle (o : outcome unit).

(** The module-level variable [server] ([None] is [undefined]; a server
    object is identified by the port it was asked to listen on) and the
    steps so far. *)
Record process : Type := {
  server : option N;
  steps : list step
}.

Abbreviation L := (State process).

Definition did (s : step) : L unit :=
  fun p => (tt, {| server := server p; steps := steps p ++ [s] |}).

Definition assign_server (h : N) : L unit :=
  fun p => (tt, {| server := Some h; steps := steps p |}).

Definition read_server : L (option N) :=
  fun p => (server p, p).

Definition resolve : L unit := did (Settle (Resolved tt)).
Definition reject (err : error) : L unit := did (Settle (Rejected err)).

(** [mongoose.connect(url, cb)] *)
Definition mongoose_connect (o : outside) (url : string)
  (cb : option error -> L unit) : L unit :=
  did (Connect url);;
  did (Connected (connect_err o));;
  cb (connect_err o).

(** The ports [app.listen] takes. For any other it throws before it
    returns a server object, inside the connect callback: [server] is not
    assigned and the promise is left unsettled. *)
Definition listen_accepts (port : N) : bool := (port <? 65536)%N.

(** [app.listen(port, cb).on('error', on_error)] on a port that
    [listen_accepts]: the call returns the server object at once; what it
    returns with it here is the event that fires later, the listen callback
    or the error handler. *)
Definition app_listen (o : outside) (port : N)
  (cb : L unit) (on_error : error -> L unit) : L (N * L unit) :=
  did (Listen port);;
  mret (port,
        match listen_err o with
        | None => did Listening;; cb
        | Some err => did (ListenError err);; on_error err
        end).

(** [mongoose.disconnect()]: the call starts the disconnect and returns a
    promise; the promise is the computation that waits for it. *)
Definition mongoose_disconnect (o : outside) : L (L (outcome unit)) :=
  did Disconnect;;
  mret (did (Disconnected (disconnect_err o));;
        mret (match disconnect_err o with
              | None => Resolved tt
              | Some err => Rejected err
              end)).

(** [server.close(cb)] *)
Definition server_close (o : outside) (h : N)
  (cb : option error -> L unit) : L unit :=
  did Close;;
  did (Closed (close_err o));;
  cb (close_err o).

(** [runServer(databaseUrl = DATABASE_URL, port = PORT)]; an argument left
    out or [undefined] is [None]. *)
Definition runServer (cfg : config) (o : outside)
  (databaseUrl : option string) (port : option N) : L unit :=
  let databaseUrl := default (DATABASE_URL cfg) databaseUrl in
  let port := default (PORT cfg) port in
  mongoose_connect o databaseUrl (fun err =>
    match err with
    | Some err => reject err
    | None =>
        '(h, later) ← app_listen o port
            (did (ConsoleLog ("Your app is listening on port " +:+ pretty port));;
             resolve)
            (fun err =>
               mongoose_disconnect o;;
               reject err);
        assign_server h;;
        later
    end).

(** [closeServer()]. With [server] still [undefined], [server.close]
    throws inside the promise executor, which rejects the promise. *)
Definition closeServer (o : outside) : L unit :=
  disconnected ← mongoose_disconnect o;
  r ← disconnected;
  match r with
  | Rejected err => reject err
  | Resolved _ =>
      did (ConsoleLog "Closing server");;
      s ← read_server;
      match s with
      | None => reject (TypeError "Cannot read property 'close' of undefined")
      | Some h =>
          server_close o h (fun err =>
            match err with
            | Some err => reject err
            | None => resolve
            end)
      end
  end.

(** How the returned promise settles: its first settlement, if any. *)
Fixpoint settlement (t : list step) : option (outcome unit) :=
  match t with
  | [] => None
  | Settle o :: _ => Some o
  | _ :: rest => settlement rest
  end.

(** The steps of a run started in a fresh process, and of a stop in a
    process whose [server] variable holds [s]. *)
Definition run_steps (cfg : config) (o : outside)
  (databaseUrl : option string) (port : option N) : list step :=
  steps (runServer cfg o databaseUrl port {| server := None; steps := [] |}).2.

Definition close_steps (o : outside) (s : option N) : list step :=
  steps (closeServer o {| server := s; steps := [] |}).2.

End Lifecycle.

Export Lifecycle.

(* ===================================================================== *)
(** ** Sample data *)
(* ===================================================================== *)

Module Sample.

(** The identifier syntax of the sample driver: 24 hexadecimal digits. *)
Definition is_hex (a : Ascii.ascii) : bool :=
  let n := Ascii.nat_of_ascii a in
  ((48 <=? n) && (n <=? 57) || (97 <=? n) && (n <=? 102))%nat.

Definition object_id (s : string) : bool :=
  (String.length s =? 24)%nat && forallb is_hex (String.list_ascii_of_string s).

Definition id1 : string := "59074c7c057aaffaafb0da64".
Definition id2 : string := "59074c7c057aaffaafb0da65".
Definition id3 : string := "59074c7c057aaffaafb0da66".

(** A store that answers, and one that has lost its connection. *)
Definition up : env :=
  {| castable := object_id; fault := None; fresh_id := id3 |}.

Definition down : env :=
  {| castable := object_id; fault := Some "connection lost"; fresh_id := id3 |}.

Definition diner : object :=
  {[ "_id" := VStr id1; "name" := VStr "Test"; "borough" := VStr "Queens";
     "cuisine" := VStr "Diner" ]}.

Definition one_restaurant : collection := {[ id1 := diner ]}.

(** Request bodies. *)
Definition rename : object := {[ "id" := VStr id1; "name" := VStr "Test2" ]}.
Definition rename_wrong_id : object :=
  {[ "id" := VStr id2; "name" := VStr "Test2" ]}.
Definition recook_absent : object :=
  {[ "id" := VStr id2; "cuisine" := VStr "Thai" ]}.
Definition no_borough : object :=
  {[ "name" := VStr "Test"; "cuisine" := VStr "Diner" ]}.

(** The body [{"id": {"toString": 1}, "name": "Test2"}]. *)
Definition rename_object_id : object :=
  {[ "id" := VObj [("toString", VNum "1")]; "name" := VStr "Test2" ]}.

(** Twelve restaurants, named after their place in the list. *)
Definition twelve_restaurants : collection :=
  list_to_map
    ((fun n : nat => (pretty n, ({[ "_id" := VStr (pretty n) ]} : object)))
       <$> seq 0 12).

Definition cfg : config :=
  {| PORT := 8080; DATABASE_URL := "mongodb://localhost/restaurants-app" |}.

Definition all_well : outside :=
  {| connect_err := None; listen_err := None;
     disconnect_err := None; close_err := None |}.

Definition port_taken : outside :=
  {| connect_err := None; listen_err := Some (SocketError "EADDRINUSE");
     disconnect_err := None; close_err := None |}.

Definition no_database : outside :=
  {| connect_err := Some (StoreFault "ECONNREFUSED"); listen_err := None;
     disconnect_err := None; close_err := None |}.

End Sample.

(* ===================================================================== *)
(** ** Two policies as the specification words them *)
(* ===================================================================== *)

Module Stated.

(** "Not found": a by-id route asked for an identifier that no stored
    document has. *)
Definition not_found (req : request) (c : collection) : Prop :=
  exists id,
    (req = GET_restaurant id \/ (exists body, req = PUT_restaurant id body) \/
     req = DELETE_restaurant id) /\
    c !! id = None.

(** The error-mapping policy at one request: any store-layer failure,
    not-found included, is answered with HTTP 500 and the generic message,
    and the error is logged. *)
Definition error_mapping (e : env) (req : request) (c : collection) : Prop :=
  let w := serve e req c in
  store_rejections (trace w) <> [] \/ not_found req c ->
  client_response (trace w) =
    Some (500, Json (Message "Internal server error")) /\
  exists err, LogError err ∈ console_lines (trace w).

(** The fall-through of the PUT handler at one request: when the
    identifier check fails the update-by-id call is issued all the same and
    the response is written a second time. *)
Definition put_falls_through (e : env) (id : string) (body : object)
  (c : collection) : Prop :=
  let w := serve e (PUT_restaurant id body) c in
  id = "" \/ body !! "id" <> Some (VStr id) ->
  (exists set, FindByIdAndUpdate id set ∈ store_calls (trace w)) /\
  length (res_writes (trace w)) = 2.

(** The stop order at one run of [closeServer]: the store disconnect does
    not start before the socket close does, and the promise resolves only
    after the disconnect and the close have both finished. *)
Definition stop_order (o : outside) (s : option N) : Prop :=
  let t := close_steps o s in
  (forall i j, t !! i = Some Disconnect -> t !! j = Some Close -> j <= i) /\
  (forall k, t !! k = Some (Settle (Resolved tt)) ->
     exists i j, i < k /\ j < k /\
       t !! i = Some (Disconnected None) /\ t !! j = Some (Closed None)).

End Stated.

(* ===================================================================== *)
(** ** Requests and lifecycle calls in sequence *)
(* ===================================================================== *)

Module Session.

(** Two requests served one after the other: the second sees the
    collection the first left. *)
Definition serve_then (e : env) (first second : request) (c : collection)
  : world :=
  serve e second (db (serve e first c)).

(** Every settlement of a trace, in order. *)
Definition settlements (t : list step) : list (outcome unit) :=
  omap (fun s => match s with Settle o => Some o | _ => None end) t.

(** [runServer(databaseUrl, port)] in a fresh process, then
    [closeServer()] in the same process. *)
Definition start_then_stop (cfg : config) (o : outside)
  (databaseUrl : option string) (port : option N) : process :=
  ((runServer cfg o databaseUrl port;; closeServer o)
     {| server := None; steps := [] |}).2.

End Session.

Export Session.

(* ===================================================================== *)
(** ** Running a handler *)
(* ===================================================================== *)

(** Unfolds the monad and the primitives of [Http] in the goal. *)
Ltac run_handler :=
  cbv [serve app get_restaurants get_restaurant post_restaurants
       put_restaurant check_ids delete_restaurant not_found forget catch_
       then_ call throw uncaught res_json res_send res_end console_error
       emit mbind mret State_bind State_ret db trace rejection];
  cbn [app_nil_l fst snd].

(** What the collection is after a query, and how the query settled. *)
Lemma by_id_rejection_None e id :
  fault e = None -> castable e id = true -> by_id_rejection e id = None.
Proof. unfold by_id_rejection. by intros -> ->. Qed.

(** The PUT handler: the update travels with the request whatever the
    identifier check said, unless building the message of the check
    threw. *)
Lemma serve_put e id body c :
  serve e (PUT_restaurant id body) c =
  let r := findByIdAndUpdate e id (toUpdate body) c in
  let update :=
    [StoreCall (FindByIdAndUpdate id (toUpdate body)) (rejection r.1);
     match r.1 with
     | Resolved _ => ResWrite 204 NoBody
     | Rejected _ => ResWrite 500 (Json internal_server_error)
     end] in
  if ids_match id body then {| db := r.2; trace := update |}
  else
    match mismatch_message id body with
    | Some message =>
        {| db := r.2;
           trace := ConsoleError (LogText message) ::
                    ResWrite 400 (Json (Message message)) :: update |}
    | None => {| db := c; trace := [Uncaught (TypeError cannot_convert)] |}
    end.
Proof.
  run_handler.
  destruct (ids_match id body); cbn [negb];
    [|destruct (mismatch_message id body); cbn [app_nil_l]];
    try destruct (findByIdAndUpdate e id (toUpdate body) c) as [[r|err] c'];
    reflexivity.
Qed.

(** The store call of a PUT, and the collection it leaves. *)
Lemma put_store_calls e id body c :
  store_calls (trace (serve e (PUT_restaurant id body) c)) =
    [FindByIdAndUpdate id (toUpdate body)] \/
  (store_calls (trace (serve e (PUT_restaurant id body) c)) = [] /\
   ids_match id body = false /\ mismatch_message id body = None).
Proof.
  rewrite serve_put. cbv zeta.
  destruct (ids_match id body);
    [|destruct (mismatch_message id body)];
    try (left; by destruct (findByIdAndUpdate e id (toUpdate body) c).1).
  by right.
Qed.

Lemma put_db e id body c :
  db (serve e (PUT_restaurant id body) c) =
    (findByIdAndUpdate e id (toUpdate body) c).2 \/
  db (serve e (PUT_restaurant id body) c) = c.
Proof.
  rewrite serve_put. cbv zeta.
  destruct (ids_match id body);
    [|destruct (mismatch_message id body)]; auto.
Qed.

Lemma serve_delete e id c :
  serve e (DELETE_restaurant id) c =
  let r := findByIdAndRemove e id c in
  {| db := r.2;
     trace :=
       [StoreCall (FindByIdAndRemove id) (rejection r.1);
        match r.1 with
        | Resolved _ => ResWrite 204 NoBody
        | Rejected _ => ResWrite 500 (Json internal_server_error)
        end] |}.
Proof.
  run_handler.
  destruct (findByIdAndRemove e id c) as [[r|err] c']; reflexivity.
Qed.

Lemma serve_get_one e id c :
  serve e (GET_restaurant id) c =
  {| db := c;
     trace :=
       StoreCall (FindById id) (rejection (findById e id c).1) ::
       match (findById e id c).1 with
       | Resolved (Some doc) => [ResWrite 200 (Json (Restaurant (apiRepr doc)))]
       | Resolved None =>
           [ConsoleError
              (LogError (TypeError "Cannot read property 'apiRepr' of null"));
            ResWrite 500 (Json internal_server_error)]
       | Rejected err =>
           [ConsoleError (LogError err);
            ResWrite 500 (Json internal_server_error)]
       end |}.
Proof.
  run_handler. unfold findById.
  destruct (by_id_rejection e id); [reflexivity|].
  cbn. destruct (c !! id); reflexivity.
Qed.

Lemma serve_get_all e c :
  serve e GET_restaurants c =
  {| db := c;
     trace :=
       StoreCall (Find 10) (rejection (find e 10 c).1) ::
       match (find e 10 c).1 with
       | Resolved restaurants =>
           [ResWrite 200 (Json (Restaurants (apiRepr <$> restaurants)))]
       | Rejected err =>
           [ConsoleError (LogError err);
            ResWrite 500 (Json internal_server_error)]
       end |}.
Proof.
  run_handler. unfold find. destruct (fault e); reflexivity.
Qed.

(** The required-fields loop either finds every field and falls out of the
    loop, or stops at the first field the body lacks. *)
Lemma check_required_run fields body w :
  (Forall (fun g => is_Some (body !! g)) fields /\
   check_required fields body w = (false, w)) \/
  (exists pre f post,
     fields = (pre ++ f :: post)%list /\
     Forall (fun g => is_Some (body !! g)) pre /\
     body !! f = None /\
     check_required fields body w =
       (true,
        {| db := db w;
           trace := trace w ++
             [ConsoleError (LogText (missing_message f));
              ResWrite 400 (PlainText (missing_message f))] |})).
Proof.
  induction fields as [|field rest IH]; cbn [check_required].
  - left. split; [constructor | reflexivity].
  - unfold has_key. destruct (body !! field) as [v|] eqn:Hfield; cbn [negb].
    + destruct IH as [[Hall Hrun] | (pre & f & post & -> & Hpre & Hf & Hrun)].
      * left. split; [constructor; eauto | exact Hrun].
      * right. exists (field :: pre), f, post.
        repeat split; [constructor; eauto | exact Hf | exact Hrun].
    + right. exists [], field, rest.
      repeat split; [constructor | exact Hfield |].
      run_handler. by rewrite <- app_assoc.
Qed.

(** The [forEach] over a list of fields, from any starting object: a field
    of the list that the body has is copied, every other key keeps what the
    starting object had. *)
Lemma copy_fields_lookup (fields : list string) (body acc : object) k :
  foldl (fun acc field =>
           if has_key field body then <[field := get body field]> acc
           else acc) acc fields !! k =
  if decide (k ∈ fields /\ is_Some (body !! k)) then body !! k else acc !! k.
Proof.
  revert acc. induction fields as [|field rest IH]; intros acc; cbn [foldl].
  - case_decide as H; [|reflexivity]. destruct H as [H _]. by inversion H.
  - rewrite IH. unfold has_key, get.
    destruct (decide (k ∈ rest /\ is_Some (body !! k))) as [[Hin Hk]|Hrest].
    + rewrite decide_True; [reflexivity|]. split; [by right | exact Hk].
    + destruct (decide (k = field)) as [->|Hne].
      * destruct (body !! field) as [v|] eqn:Hv; cbn.
        -- rewrite lookup_insert_eq, decide_True; [reflexivity|].
           split; [by left | by eexists].
        -- rewrite decide_False; [reflexivity|].
           intros [_ [v Hv']]. congruence.
      * rewrite decide_False.
        -- destruct (body !! field); cbn; [by rewrite lookup_insert_ne|done].
        -- intros [Hin Hk]. apply Hrest. split; [|exact Hk].
           by inversion Hin; subst.
Qed.

Lemma toUpdate_lookup body k :
  toUpdate body !! k =
  if decide (k ∈ updateableFields) then body !! k else None.
Proof.
  unfold toUpdate. rewrite copy_fields_lookup, lookup_empty.
  destruct (decide (k ∈ updateableFields)) as [Hin|Hout].
  - destruct (body !! k) as [v|] eqn:Hk.
    + rewrite decide_True; [done|]. split; [exact Hin | by eexists].
    + by case_decide.
  - rewrite decide_False; [done|]. by intros [? _].
Qed.

Lemma toUpdate_dom body :
  dom (toUpdate body) = list_to_set updateableFields ∩ dom body.
Proof.
  apply set_eq. intros k.
  rewrite elem_of_intersection, elem_of_list_to_set, !elem_of_dom,
    toUpdate_lookup.
  case_decide as Hin.
  - tauto.
  - split; [intros [? ?]; discriminate | tauto].
Qed.

(** Proves that a literal key is not one of [updateableFields]. *)
Ltac not_a_field :=
  unfold updateableFields; rewrite !elem_of_cons, elem_of_nil;
  let H := fresh in
  intros H; decompose [or] H; first [discriminate | contradiction].

(** The condition [ids_match] in terms of the two identifiers. *)
Lemma ids_match_true id body :
  ids_match id body = true <-> id <> "" /\ body !! "id" = Some (VStr id).
Proof.
  unfold ids_match, get, truthy, strict_eq.
  destruct (String.eqb_spec id "") as [->|Hid]; cbn.
  - split; [discriminate | intros [? _]; congruence].
  - destruct (body !! "id") as [[| |b|p|s|items|props]|]; cbn;
      rewrite ?andb_false_r;
      try (split; [discriminate | intros [_ ?]; congruence]).
    destruct (String.eqb_spec id s) as [->|Hne];
      destruct (String.eqb_spec s "") as [->|Hs]; cbn;
      split; try discriminate; try tauto; intros [_ ?]; congruence.
Qed.

Lemma ids_match_false id body :
  id = "" \/ body !! "id" <> Some (VStr id) -> ids_match id body = false.
Proof.
  intros H. destruct (ids_match id body) eqn:Hm; [|reflexivity].
  apply ids_match_true in Hm as [? ?]. destruct H; congruence.
Qed.

Lemma ids_match_false_inv id body :
  ids_match id body = false -> id = "" \/ body !! "id" <> Some (VStr id).
Proof.
  intros Hm. destruct (decide (id = "")) as [->|Hid]; [by left|right].
  intros Hbody. assert (ids_match id body = true) by by apply ids_match_true.
  congruence.
Qed.

(** Induction on values, with the elements of an array at hand. *)
Lemma value_nested_ind (P : value -> Prop) :
  P VUndefined -> P VNull -> (forall b, P (VBool b)) ->
  (forall p, P (VNum p)) -> (forall s, P (VStr s)) ->
  (forall items, Forall P items -> P (VArr items)) ->
  (forall props, P (VObj props)) ->
  forall v, P v.
Proof.
  intros Hundef Hnull Hbool Hnum Hstr Harr Hobj.
  fix IH 1.
  intros [| |b|p|s|items|props];
    [exact Hundef | exact Hnull | apply Hbool | apply Hnum | apply Hstr
    | | apply Hobj].
  apply Harr. induction items as [|x items IHitems]; constructor;
    [apply IH | exact IHitems].
Qed.

(** When the conversion to a string throws. *)
Lemma print_items_None items :
  Forall (fun x => to_string x = None <-> unprintable x) items ->
  print_items to_string items = None <->
  exists x, x ∈ items /\ unprintable x.
Proof.
  induction 1 as [|x items Hx Hall IH]; cbn [print_items].
  - split; [discriminate|]. intros (x & Hin & _). by apply elem_of_nil in Hin.
  - assert (Hhead : match x with
                    | VUndefined | VNull => Some ""
                    | _ => to_string x
                    end = None <-> unprintable x).
    { destruct x; try exact Hx; split; try discriminate; inversion 1. }
    destruct (match x with
              | VUndefined | VNull => Some ""
              | _ => to_string x
              end) as [s|].
    + destruct (print_items to_string items) as [ss|].
      * split; [discriminate|]. intros (y & Hin & Hy).
        apply elem_of_cons in Hin as [->|Hin].
        -- by apply Hhead in Hy.
        -- assert (Some ss = None) by (apply IH; by exists y).
           discriminate.
      * split; [|reflexivity]. intros _.
        destruct IH as [IH _]. destruct (IH eq_refl) as (y & Hin & Hy).
        exists y. split; [by right | exact Hy].
    + split; [|reflexivity]. intros _. exists x.
      split; [by left | by apply Hhead].
Qed.

Lemma to_string_None v : to_string v = None <-> unprintable v.
Proof.
  induction v as [| |b|p|s|items IH|props] using value_nested_ind.
  1, 2, 4, 5: split; [discriminate | inversion 1].
  - destruct b; split; try discriminate; inversion 1.
  - cbn [to_string]. rewrite fmap_None, (print_items_None items IH). split.
    + intros (x & Hin & Hx). by eapply unprintable_array.
    + inversion 1; subst. eauto.
  - cbn [to_string]. case_decide as Hkey; split; try discriminate.
    + intros _. by constructor.
    + reflexivity.
    + inversion 1; subst. contradiction.
Qed.

Lemma mismatch_message_None id body :
  mismatch_message id body = None <->
  unprintable (default VUndefined (body !! "id")).
Proof.
  unfold mismatch_message, get. rewrite <- to_string_None.
  by destruct (to_string (default VUndefined (body !! "id"))).
Qed.

Lemma mismatch_message_Some id body :
  ~ unprintable (default VUndefined (body !! "id")) ->
  exists printed,
    to_string (default VUndefined (body !! "id")) = Some printed /\
    mismatch_message id body =
      Some ("Request path id (" +:+ id +:+ ") and request body id " +:+
            ("(" +:+ printed +:+ ") must match")).
Proof.
  intros Hprintable. unfold mismatch_message, get.
  destruct (to_string (default VUndefined (body !! "id"))) as [printed|]
    eqn:Hprinted.
  - by exists printed.
  - by apply to_string_None in Hprinted.
Qed.

(** An array of strings prints as the strings joined by commas. *)
Lemma to_string_strings strs :
  to_string (VArr (VStr <$> strs)) = Some (String.concat "," strs).
Proof.
  cbn [to_string].
  assert (print_items to_string (VStr <$> strs) = Some strs) as ->;
    [|reflexivity].
  induction strs as [|s strs IH]; [reflexivity|].
  cbn [fmap list_fmap print_items] in *. by rewrite IH.
Qed.

(** The POST handler either stops in the loop or reaches [create]. *)
Lemma serve_post_cases e body c :
  (Forall (fun g => is_Some (body !! g)) requiredFields /\
   serve e (POST_restaurants body) c =
   let r := create e (create_fields body) c in
   {| db := r.2;
      trace :=
        StoreCall (Create (create_fields body)) (rejection r.1) ::
        match r.1 with
        | Resolved restaurant =>
            [ResWrite 201 (Json (Restaurant (apiRepr restaurant)))]
        | Rejected err =>
            [ConsoleError (LogError err);
             ResWrite 500 (Json internal_server_error)]
        end |}) \/
  (exists pre f post,
     requiredFields = (pre ++ f :: post)%list /\
     Forall (fun g => is_Some (body !! g)) pre /\
     body !! f = None /\
     serve e (POST_restaurants body) c =
     {| db := c;
        trace := [ConsoleError (LogText (missing_message f));
                  ResWrite 400 (PlainText (missing_message f))] |}).
Proof.
  destruct (check_required_run requiredFields body {| db := c; trace := [] |})
    as [[Hall Hrun] | (pre & f & post & Hsplit & Hpre & Hf & Hrun)].
  - left. split; [exact Hall|].
    unfold serve, app, post_restaurants, mbind, State_bind at 1.
    rewrite Hrun. run_handler.
    destruct (create e (create_fields body) c) as [[r|err] c']; reflexivity.
  - right. exists pre, f, post. repeat split; try assumption.
    unfold serve, app, post_restaurants, mbind, State_bind at 1.
    rewrite Hrun. reflexivity.
Qed.

(** What each store operation leaves of a document that was there. *)
Lemma findByIdAndUpdate_db e id set c i doc :
  c !! i = Some doc ->
  exists doc', (findByIdAndUpdate e id set c).2 !! i = Some doc' /\
    forall k, set !! k = None -> doc' !! k = doc !! k.
Proof.
  intros Hi. unfold findByIdAndUpdate.
  destruct (by_id_rejection e id); cbn; [by exists doc|].
  destruct (c !! id) as [old|] eqn:Hid; cbn; [|by exists doc].
  destruct (decide (id = i)) as [->|Hne].
  - rewrite lookup_insert_eq. eexists; split; [reflexivity|].
    intros k Hk. rewrite lookup_union, Hk, (left_id_L None _).
    congruence.
  - rewrite lookup_insert_ne by done. by exists doc.
Qed.

Lemma create_db e fields c i doc :
  c !! i = Some doc -> (create e fields c).2 !! i = Some doc.
Proof.
  intros Hi. unfold create.
  destruct (fault e); cbn; [done|].
  destruct (c !! fresh_id e) eqn:Hfresh; cbn; [done|].
  rewrite lookup_insert_ne; [done|]. congruence.
Qed.

Lemma findByIdAndRemove_db e id c i :
  (findByIdAndRemove e id c).2 !! i = c !! i \/
  (id = i /\ (findByIdAndRemove e id c).2 !! i = None).
Proof.
  unfold findByIdAndRemove.
  destruct (by_id_rejection e id); cbn; [by left|].
  destruct (decide (id = i)) as [->|Hne].
  - right. by rewrite lookup_delete_eq.
  - left. by rewrite lookup_delete_ne.
Qed.

(* ===================================================================== *)
(** ** PUT /restaurants/:id: the update set and what it leaves alone *)
(* ===================================================================== *)


(** The end-to-end example of the specification: renaming "Test" to "Test2"
    leaves the borough "Queens". *)
Example put_rename_keeps_borough :
  let w := serve Sample.up (PUT_restaurant Sample.id1 Sample.rename)
             Sample.one_restaurant in
  client_response (trace w) = Some (204, NoBody) /\
  db w !! Sample.id1 = Some (<["name" := VStr "Test2"]> Sample.diner).
Proof. vm_compute. split; reflexivity. Qed.

(** C7. No PUT /restaurants/:id request changes an identifier: the update
    set never has the key id (nor [_id]), whatever the body holds, and under
    every operation of the API a stored document either keeps its
    identifier, at the place it had in the collection, or is the document a
    DELETE of that identifier removed. *)
Theorem identifier_is_immutable e req c :
  let w := serve e req c in
  (forall id set, FindByIdAndUpdate id set ∈ store_calls (trace w) ->
     set !! "id" = None /\ set !! "_id" = None) /\
  (forall i doc, c !! i = Some doc ->
     match db w !! i with
     | Some doc' => doc' !! "_id" = doc !! "_id"
     | None => req = DELETE_restaurant i
     end).
Proof.
  intros w. subst w. destruct req as [|id|body|id body|id|].
  - rewrite serve_get_all. cbn [db trace]. split.
    + intros id set Hin. destruct (find e 10 c).1; cbn in Hin;
        apply list_elem_of_singleton in Hin; discriminate.
    + intros i doc ->. reflexivity.
  - rewrite serve_get_one. cbn [db trace]. split.
    + intros id' set Hin.
      destruct (findById e id c).1 as [[?|]|?]; cbn in Hin;
        apply list_elem_of_singleton in Hin; discriminate.
    + intros i doc ->. reflexivity.
  - destruct (serve_post_cases e body c)
      as [[_ ->] | (pre & f & post & _ & _ & _ & ->)]; cbn [db trace]; split.
    + intros id set Hin.
      destruct (create e (create_fields body) c).1; cbn in Hin;
        apply list_elem_of_singleton in Hin; discriminate.
    + intros i doc Hi. by rewrite (create_db e _ c i doc Hi).
    + intros id set Hin. cbn in Hin. by apply elem_of_nil in Hin.
    + intros i doc ->. reflexivity.
  - split.
    + intros id' set Hin.
      destruct (put_store_calls e id body c) as [Hcalls | [Hcalls _]];
        rewrite Hcalls in Hin; [|by apply elem_of_nil in Hin].
      apply list_elem_of_singleton in Hin. injection Hin as -> ->.
      rewrite !toUpdate_lookup.
      split; apply decide_False; not_a_field.
    + intros i doc Hi.
      destruct (put_db e id body c) as [-> | ->]; [|by rewrite Hi].
      destruct (findByIdAndUpdate_db e id (toUpdate body) c i doc Hi)
        as (doc' & -> & Hkeep).
      apply Hkeep. rewrite toUpdate_lookup. apply decide_False.
      not_a_field.
  - rewrite serve_delete. cbn [db trace]. split.
    + intros id' set Hin.
      destruct (findByIdAndRemove e id c).1; cbn in Hin;
        apply list_elem_of_singleton in Hin; discriminate.
    + intros i doc Hi.
      destruct (findByIdAndRemove_db e id c i) as [-> | [-> ->]];
        [by rewrite Hi | reflexivity].
  - split.
    + intros id set Hin. cbn in Hin. by apply elem_of_nil in Hin.
    + intros i doc Hi. change (db (serve e Unmatched c)) with c.
      by rewrite Hi.
Qed.

(** A body that tries to move the document to another identifier. *)
Example put_body_id_is_not_written :
  let w := serve Sample.up
             (PUT_restaurant Sample.id1
                {[ "id" := VStr Sample.id2; "_id" := VStr Sample.id2;
                   "cuisine" := VStr "Thai" ]})
             Sample.one_restaurant in
  store_calls (trace w) =
    [FindByIdAndUpdate Sample.id1 {[ "cuisine" := VStr "Thai" ]}] /\
  db w !! Sample.id2 = None /\
  db w !! Sample.id1 = Some (<["cuisine" := VStr "Thai"]> Sample.diner).
Proof. vm_compute. repeat split; reflexivity. Qed.

(* ===================================================================== *)
(** ** POST /restaurants: the required fields *)
(* ===================================================================== *)

(** C2. For every POST /restaurants request whose body lacks at least one
    of the keys name, borough, cuisine, the handler logs and sends, with
    status 400 and as plain text, the message naming the first missing
    field in that order; it does nothing else: no store call is made and
    the collection is as it was. *)
Theorem post_missing_field_400 e body c :
  (exists f, f ∈ ["name"; "borough"; "cuisine"] /\ body !! f = None) ->
  exists pre f post,
    ["name"; "borough"; "cuisine"] = (pre ++ f :: post)%list /\
    (forall g, g ∈ pre -> is_Some (body !! g)) /\
    body !! f = None /\
    let w := serve e (POST_restaurants body) c in
    let message := "Missing `" +:+ f +:+ "` in request body" in
    trace w = [ConsoleError (LogText message);
               ResWrite 400 (PlainText message)] /\
    client_response (trace w) = Some (400, PlainText message) /\
    store_calls (trace w) = [] /\
    db w = c.
Proof.
  intros (f0 & Hin & Hmiss).
  destruct (serve_post_cases e body c)
    as [[Hall _] | (pre & f & post & Hsplit & Hpre & Hf & Hrun)].
  - rewrite Forall_forall in Hall. destruct (Hall f0 Hin). congruence.
  - exists pre, f, post. rewrite Forall_forall in Hpre.
    split; [exact Hsplit|]. split; [exact Hpre|]. split; [exact Hf|].
    cbv zeta. rewrite Hrun. by cbn.
Qed.

Lemma post_missing_field_400_witness :
  exists pre f post,
    ["name"; "borough"; "cuisine"] = (pre ++ f :: post)%list /\
    (forall g, g ∈ pre -> is_Some (Sample.no_borough !! g)) /\
    Sample.no_borough !! f = None /\
    let w := serve Sample.up (POST_restaurants Sample.no_borough)
               Sample.one_restaurant in
    let message := "Missing `" +:+ f +:+ "` in request body" in
    trace w = [ConsoleError (LogText message);
               ResWrite 400 (PlainText message)] /\
    client_response (trace w) = Some (400, PlainText message) /\
    store_calls (trace w) = [] /\
    db w = Sample.one_restaurant.
Proof.
  apply (post_missing_field_400 Sample.up Sample.no_borough
           Sample.one_restaurant).
  exists "borough". split; [|reflexivity].
  apply list_elem_of_further, list_elem_of_here.
Defined.

Example post_without_borough :
  trace (serve Sample.up (POST_restaurants Sample.no_borough)
           Sample.one_restaurant) =
  [ConsoleError (LogText "Missing `borough` in request body");
   ResWrite 400 (PlainText "Missing `borough` in request body")].
Proof. reflexivity. Qed.

(** With nothing but an empty object, the first field of the list is named. *)
Example post_empty_body :
  client_response (trace (serve Sample.up (POST_restaurants ∅) ∅)) =
  Some (400, PlainText "Missing `name` in request body").
Proof. reflexivity. Qed.

(** The first step of the end-to-end example of the specification. *)
Example post_complete_body :
  let body : object :=
    {[ "name" := VStr "Test"; "borough" := VStr "Queens";
       "cuisine" := VStr "Diner" ]} in
  let w := serve Sample.up (POST_restaurants body) ∅ in
  client_response (trace w) =
    Some (201, Json (Restaurant (<["id" := VStr Sample.id3]> body))) /\
  db w = {[ Sample.id3 := <["_id" := VStr Sample.id3]> body ]}.
Proof. vm_compute. split; reflexivity. Qed.

(* ===================================================================== *)
(** ** PUT /restaurants/:id: the identifier check *)
(* ===================================================================== *)

(** C3 holds of the handler except where building the message throws. On
    PUT /restaurants/59074c7c057aaffaafb0da64 with the body
    [{"id": {"toString": 1}, "name": "Test2"}] the identifiers do not
    match, yet the handler writes no 400: the concatenation of the message
    throws a [TypeError], nothing is logged, no store call is made, and the
    exception leaves the handler. *)
Theorem put_object_id_throws_before_the_400 :
  let w := serve Sample.up
             (PUT_restaurant Sample.id1 Sample.rename_object_id)
             Sample.one_restaurant in
  Sample.rename_object_id !! "id" <> Some (VStr Sample.id1) /\
  trace w = [Uncaught (TypeError "Cannot convert object to primitive value")] /\
  res_writes (trace w) = [] /\
  db w = Sample.one_restaurant.
Proof.
  cbv zeta. split; [vm_compute; discriminate|].
  vm_compute. repeat split; reflexivity.
Qed.

(** The message of the check, body id given as it prints. *)
Lemma mismatch_message_printed id body printed :
  to_string (default VUndefined (body !! "id")) = Some printed ->
  mismatch_message id body =
    Some ("Request path id (" +:+ id +:+ ") and request body id " +:+
          ("(" +:+ printed +:+ ") must match")).
Proof. unfold mismatch_message, get. by intros ->. Qed.

(** What the client receives when the check fails and the message is
    [message]. *)
Lemma put_mismatch_response e id body c message :
  id = "" \/ body !! "id" <> Some (VStr id) ->
  mismatch_message id body = Some message ->
  client_response (trace (serve e (PUT_restaurant id body) c)) =
    Some (400, Json (Message message)).
Proof.
  intros Hids Hmessage.
  by rewrite serve_put, (ids_match_false id body Hids), Hmessage.
Qed.

(** X19. When the identifiers of a PUT /restaurants/:id request do not
    match, the client receives HTTP 400 with a JSON message that quotes the
    path identifier and the body identifier as JavaScript prints it:
    [undefined] when the body has none, [null], [true], [false], a number
    or string as it is, [[object Object]] for an object without a key
    toString, the strings of an array of strings joined by commas; and some
    message for every array that can be printed. *)
Theorem put_id_mismatch_400 e id body c :
  id = "" \/ body !! "id" <> Some (VStr id) ->
  let answered printed :=
    client_response (trace (serve e (PUT_restaurant id body) c)) =
    Some (400,
          Json (Message
                  ("Request path id (" +:+ id +:+ ") and request body id " +:+
                   ("(" +:+ printed +:+ ") must match")))) in
  match body !! "id" with
  | None | Some VUndefined => answered "undefined"
  | Some VNull => answered "null"
  | Some (VBool b) => answered (if b then "true" else "false")
  | Some (VNum p) => answered p
  | Some (VStr s) => answered s
  | Some (VObj props) =>
      "toString" ∉ props.*1 -> answered "[object Object]"
  | Some (VArr items) =>
      (forall strs, items = VStr <$> strs ->
         answered (String.concat "," strs)) /\
      (~ unprintable (VArr items) -> exists printed, answered printed)
  end.
Proof.
  intros Hids answered. subst answered.
  assert (Hanswer : forall printed,
            to_string (default VUndefined (body !! "id")) = Some printed ->
            client_response (trace (serve e (PUT_restaurant id body) c)) =
            Some (400,
                  Json (Message
                          ("Request path id (" +:+ id +:+
                           ") and request body id " +:+
                           ("(" +:+ printed +:+ ") must match"))))).
  { intros printed Hprinted.
    by apply (put_mismatch_response e id body c _ Hids),
      mismatch_message_printed. }
  assert (Hsome : ~ unprintable (default VUndefined (body !! "id")) ->
            exists printed,
              to_string (default VUndefined (body !! "id")) = Some printed).
  { intros Hprintable.
    destruct (mismatch_message_Some id body Hprintable) as (printed & ? & _).
    by exists printed. }
  clear Hids.
  destruct (body !! "id") as [[| |[|]|p|s|items|props]|];
    cbn [default] in *; try by apply Hanswer.
  - split.
    + intros strs ->. apply Hanswer, to_string_strings.
    + intros Hprintable. destruct (Hsome Hprintable) as [printed Hprinted].
      exists printed. by apply Hanswer.
  - intros Hkey. apply Hanswer. cbn. by rewrite decide_False.
Qed.

Lemma put_id_mismatch_400_witness :
  client_response
    (trace (serve Sample.up
              (PUT_restaurant Sample.id1 Sample.rename_wrong_id)
              Sample.one_restaurant)) =
  Some (400,
        Json (Message
                "Request path id (59074c7c057aaffaafb0da64) and request body id (59074c7c057aaffaafb0da65) must match")).
Proof.
  apply (put_id_mismatch_400 Sample.up Sample.id1 Sample.rename_wrong_id
           Sample.one_restaurant).
  right. vm_compute. discriminate.
Defined.

(** A body without id, one whose id is a number, one whose id is an array
    with a hole, and one whose id is an object without a key toString. *)
Example put_without_body_id :
  client_response
    (trace (serve Sample.up
              (PUT_restaurant "7" {[ "name" := VStr "Test2" ]}) ∅)) =
  Some (400,
        Json (Message
                "Request path id (7) and request body id (undefined) must match")).
Proof. reflexivity. Qed.

Example put_numeric_body_id :
  client_response
    (trace (serve Sample.up
              (PUT_restaurant "7" {[ "id" := VNum "7" ]}) ∅)) =
  Some (400,
        Json (Message
                "Request path id (7) and request body id (7) must match")).
Proof. reflexivity. Qed.

Example put_array_body_id :
  client_response
    (trace (serve Sample.up
              (PUT_restaurant "7"
                 {[ "id" := VArr [VNum "7"; VNull; VArr [VBool true; VStr "x"]] ]})
              ∅)) =
  Some (400,
        Json (Message
                "Request path id (7) and request body id (7,,true,x) must match")).
Proof. reflexivity. Qed.

Example put_object_body_id :
  client_response
    (trace (serve Sample.up
              (PUT_restaurant "7" {[ "id" := VObj [("valueOf", VNum "7")] ]})
              ∅)) =
  Some (400,
        Json (Message
                "Request path id (7) and request body id ([object Object]) must match")).
Proof. reflexivity. Qed.

(** X20. A PUT /restaurants/:id request whose body id cannot be converted
    to a string (an object with a key toString, or an array holding such a
    value) is not handled at all: building the message of the identifier
    check throws, so the handler logs nothing, writes nothing on the
    response, makes no store call and leaves the collection as it was. *)
Theorem put_unprintable_id_throws e id body c :
  unprintable (default VUndefined (body !! "id")) ->
  let w := serve e (PUT_restaurant id body) c in
  trace w = [Uncaught (TypeError "Cannot convert object to primitive value")] /\
  db w = c.
Proof.
  intros Hthrows w. subst w.
  assert (Hids : id = "" \/ body !! "id" <> Some (VStr id)).
  { right. intros Hbody. rewrite Hbody in Hthrows. inversion Hthrows. }
  apply mismatch_message_None with (id := id) in Hthrows.
  by rewrite serve_put, (ids_match_false id body Hids), Hthrows.
Qed.

Lemma put_unprintable_id_throws_witness :
  let w := serve Sample.up
             (PUT_restaurant Sample.id1
                {[ "id" := VArr [VStr "a"; VObj [("toString", VNull)]] ]})
             Sample.one_restaurant in
  trace w = [Uncaught (TypeError "Cannot convert object to primitive value")] /\
  db w = Sample.one_restaurant.
Proof.
  apply (put_unprintable_id_throws Sample.up Sample.id1
           {[ "id" := VArr [VStr "a"; VObj [("toString", VNull)]] ]}
           Sample.one_restaurant).
  apply (unprintable_array _ (VObj [("toString", VNull)])).
  - apply list_elem_of_further, list_elem_of_here.
  - apply unprintable_object, list_elem_of_here.
Defined.

(** C4, as stated, fails: the request of the body
    [{"id": {"toString": 1}, "name": "Test2"}] fails the identifier check
    and no update is issued, because the handler throws while it builds
    the message of the 400. *)
Lemma put_falls_through_fails :
  ~ Stated.put_falls_through Sample.up Sample.id1 Sample.rename_object_id
      Sample.one_restaurant.
Proof.
  intros H. destruct H as [[set Hin] _].
  - right. vm_compute. discriminate.
  - vm_compute in Hin. by apply elem_of_nil in Hin.
Qed.

(** C4, amended. For every PUT /restaurants/:id request that fails the
    identifier check and whose body id can be converted to a string, the
    handler still issues the update-by-id call after writing the 400, with
    a [$set] of exactly the keys among name, borough, cuisine, address that
    the body holds and the body's values, and then attempts a second write
    on the response (204 or 500); when the path identifier is one of a
    stored document and the store answers, that document is modified: it
    takes those fields of the body and keeps every other one. *)
Theorem put_mismatch_still_updates e id body c :
  id = "" \/ body !! "id" <> Some (VStr id) ->
  ~ unprintable (default VUndefined (body !! "id")) ->
  let w := serve e (PUT_restaurant id body) c in
  (exists message rejected second set,
     trace w = [ConsoleError (LogText message);
                ResWrite 400 (Json (Message message));
                StoreCall (FindByIdAndUpdate id set) rejected;
                ResWrite second.1 second.2] /\
     dom set =
       list_to_set ["name"; "borough"; "cuisine"; "address"] ∩ dom body /\
     (forall k, k ∈ dom set -> set !! k = body !! k) /\
     (second = (204, NoBody) \/
      second = (500, Json (Message "Internal server error")))) /\
  (forall doc,
     fault e = None -> castable e id = true -> c !! id = Some doc ->
     exists doc',
       db w !! id = Some doc' /\
       (forall k v, k ∈ ["name"; "borough"; "cuisine"; "address"] ->
                    body !! k = Some v -> doc' !! k = Some v) /\
       (forall k, k ∉ ["name"; "borough"; "cuisine"; "address"] \/
                  body !! k = None -> doc' !! k = doc !! k)).
Proof.
  intros Hids Hprintable w. subst w.
  destruct (mismatch_message_Some id body Hprintable)
    as (printed & _ & Hmessage).
  rewrite serve_put, (ids_match_false id body Hids), Hmessage.
  cbn [db trace]. split.
  - eexists _, (rejection (findByIdAndUpdate e id (toUpdate body) c).1),
      (match (findByIdAndUpdate e id (toUpdate body) c).1 with
       | Resolved _ => (204, NoBody)
       | Rejected _ => (500, Json internal_server_error)
       end), (toUpdate body).
    split; [|split; [apply toUpdate_dom | split]].
    + by destruct (findByIdAndUpdate e id (toUpdate body) c).1.
    + intros k Hk. rewrite toUpdate_lookup. case_decide as Hin; [done|].
      apply elem_of_dom in Hk as [v Hv].
      by rewrite toUpdate_lookup, decide_False in Hv.
    + destruct (findByIdAndUpdate e id (toUpdate body) c).1; auto.
  - intros doc Hfault Hcast Hdoc. unfold findByIdAndUpdate.
    rewrite (by_id_rejection_None e id Hfault Hcast), Hdoc. cbn [snd].
    rewrite lookup_insert_eq. eexists. split; [reflexivity|]. split.
    + intros k v Hk Hv. apply lookup_union_Some_l.
      by rewrite toUpdate_lookup, decide_True.
    + intros k Hk. rewrite lookup_union, toUpdate_lookup.
      destruct Hk as [Hk|Hk].
      * by rewrite decide_False, (left_id_L None _).
      * case_decide; by rewrite ?Hk, (left_id_L None _).
Qed.

Lemma put_mismatch_still_updates_witness :
  let w := serve Sample.up
             (PUT_restaurant Sample.id1 Sample.rename_wrong_id)
             Sample.one_restaurant in
  (exists message rejected second set,
     trace w = [ConsoleError (LogText message);
                ResWrite 400 (Json (Message message));
                StoreCall (FindByIdAndUpdate Sample.id1 set) rejected;
                ResWrite second.1 second.2] /\
     dom set =
       list_to_set ["name"; "borough"; "cuisine"; "address"]
       ∩ dom Sample.rename_wrong_id /\
     (forall k, k ∈ dom set -> set !! k = Sample.rename_wrong_id !! k) /\
     (second = (204, NoBody) \/
      second = (500, Json (Message "Internal server error")))) /\
  (forall doc,
     fault Sample.up = None -> castable Sample.up Sample.id1 = true ->
     Sample.one_restaurant !! Sample.id1 = Some doc ->
     exists doc',
       db w !! Sample.id1 = Some doc' /\
       (forall k v, k ∈ ["name"; "borough"; "cuisine"; "address"] ->
                    Sample.rename_wrong_id !! k = Some v ->
                    doc' !! k = Some v) /\
       (forall k, k ∉ ["name"; "borough"; "cuisine"; "address"] \/
                  Sample.rename_wrong_id !! k = None ->
                  doc' !! k = doc !! k)).
Proof.
  apply (put_mismatch_still_updates Sample.up Sample.id1
           Sample.rename_wrong_id Sample.one_restaurant).
  - right. vm_compute. discriminate.
  - vm_compute. inversion 1.
Defined.

(** The rejected request has renamed the restaurant all the same. *)
Example put_wrong_id_renames :
  let w := serve Sample.up
             (PUT_restaurant Sample.id1 Sample.rename_wrong_id)
             Sample.one_restaurant in
  res_writes (trace w) =
    [(400, Json (Message
                   "Request path id (59074c7c057aaffaafb0da64) and request body id (59074c7c057aaffaafb0da65) must match"));
     (204, NoBody)] /\
  Sample.one_restaurant !! Sample.id1 = Some Sample.diner /\
  db w !! Sample.id1 = Some (<["name" := VStr "Test2"]> Sample.diner) /\
  Sample.diner !! "name" = Some (VStr "Test").
Proof. vm_compute. repeat split; reflexivity. Qed.

(* ===================================================================== *)
(** ** Identifiers that no stored document has *)
(* ===================================================================== *)

(** C6. For every identifier not present in storage, GET /restaurants/:id
    answers HTTP 500 (not 404) with the generic error body, whether the
    store rejects the query or resolves it with no document. *)
Theorem get_absent_id_500 e id c :
  c !! id = None ->
  client_response (trace (serve e (GET_restaurant id) c)) =
  Some (500, Json (Message "Internal server error")).
Proof.
  intros Hid. rewrite serve_get_one. unfold findById.
  destruct (by_id_rejection e id); cbn; [reflexivity|].
  by rewrite Hid.
Qed.

Lemma get_absent_id_500_witness :
  client_response
    (trace (serve Sample.up (GET_restaurant Sample.id2)
              Sample.one_restaurant)) =
  Some (500, Json (Message "Internal server error")).
Proof.
  apply (get_absent_id_500 Sample.up Sample.id2 Sample.one_restaurant).
  vm_compute. reflexivity.
Defined.

(** The two ways to the 500: a well-formed identifier that is not stored,
    and a string the driver does not take for an identifier. *)
Example get_absent_trace :
  trace (serve Sample.up (GET_restaurant Sample.id2) Sample.one_restaurant) =
  [StoreCall (FindById Sample.id2) None;
   ConsoleError (LogError (TypeError "Cannot read property 'apiRepr' of null"));
   ResWrite 500 (Json (Message "Internal server error"))].
Proof. reflexivity. Qed.

Example get_malformed_trace :
  trace (serve Sample.up (GET_restaurant "42") Sample.one_restaurant) =
  [StoreCall (FindById "42") (Some (CastError "42"));
   ConsoleError (LogError (CastError "42"));
   ResWrite 500 (Json (Message "Internal server error"))].
Proof. reflexivity. Qed.

Example get_present :
  client_response
    (trace (serve Sample.up (GET_restaurant Sample.id1)
              Sample.one_restaurant)) =
  Some (200,
        Json (Restaurant
                {[ "id" := VStr Sample.id1; "name" := VStr "Test";
                   "borough" := VStr "Queens"; "cuisine" := VStr "Diner" ]})).
Proof. vm_compute. reflexivity. Qed.

(** C10. For every well-formed identifier not present in storage, and a
    store that answers, PUT /restaurants/:id with matching identifiers and
    DELETE /restaurants/:id both answer HTTP 204 with an empty body, and
    what they write on the response is what they write when a document
    with that identifier is stored. *)
Theorem put_delete_absent_id_204 e id body c :
  fault e = None -> castable e id = true -> c !! id = None ->
  id <> "" -> body !! "id" = Some (VStr id) ->
  let put := serve e (PUT_restaurant id body) in
  let del := serve e (DELETE_restaurant id) in
  client_response (trace (put c)) = Some (204, NoBody) /\
  client_response (trace (del c)) = Some (204, NoBody) /\
  forall c' doc, c' !! id = Some doc ->
    res_writes (trace (put c')) = res_writes (trace (put c)) /\
    res_writes (trace (del c')) = res_writes (trace (del c)).
Proof.
  intros Hfault Hcast Hid Hne Hbody put del. subst put del.
  assert (Hmatch : ids_match id body = true) by by apply ids_match_true.
  assert (Hput : forall c0,
            trace (serve e (PUT_restaurant id body) c0) =
            [StoreCall (FindByIdAndUpdate id (toUpdate body)) None;
             ResWrite 204 NoBody]).
  { intros c0. rewrite serve_put, Hmatch. unfold findByIdAndUpdate.
    rewrite (by_id_rejection_None e id Hfault Hcast).
    by destruct (c0 !! id). }
  assert (Hdel : forall c0,
            trace (serve e (DELETE_restaurant id) c0) =
            [StoreCall (FindByIdAndRemove id) None; ResWrite 204 NoBody]).
  { intros c0. rewrite serve_delete. unfold findByIdAndRemove.
    by rewrite (by_id_rejection_None e id Hfault Hcast). }
  rewrite (Hput c), (Hdel c). repeat split; try reflexivity.
  - by rewrite (Hput c').
  - by rewrite (Hdel c').
Qed.

Lemma put_delete_absent_id_204_witness :
  let put := serve Sample.up (PUT_restaurant Sample.id2 Sample.recook_absent) in
  let del := serve Sample.up (DELETE_restaurant Sample.id2) in
  client_response (trace (put Sample.one_restaurant)) = Some (204, NoBody) /\
  client_response (trace (del Sample.one_restaurant)) = Some (204, NoBody) /\
  forall c' doc, c' !! Sample.id2 = Some doc ->
    res_writes (trace (put c')) =
      res_writes (trace (put Sample.one_restaurant)) /\
    res_writes (trace (del c')) =
      res_writes (trace (del Sample.one_restaurant)).
Proof.
  apply (put_delete_absent_id_204 Sample.up Sample.id2 Sample.recook_absent
           Sample.one_restaurant);
    [reflexivity | vm_compute; reflexivity | vm_compute; reflexivity
    | discriminate | vm_compute; reflexivity].
Defined.

(** Neither request touches the collection. *)
Example put_delete_absent_db :
  db (serve Sample.up (PUT_restaurant Sample.id2 Sample.recook_absent)
        Sample.one_restaurant) = Sample.one_restaurant /\
  db (serve Sample.up (DELETE_restaurant Sample.id2)
        Sample.one_restaurant) = Sample.one_restaurant.
Proof. vm_compute. split; reflexivity. Qed.

(* ===================================================================== *)
(** ** Store failures *)
(* ===================================================================== *)

(** C5, as stated, fails. A DELETE of a well-formed identifier that is not
    stored is no failure to the handler: it answers 204. And when the store
    rejects a DELETE, the handler answers 500 without logging the error. *)
Lemma error_mapping_fails_on_delete :
  ~ Stated.error_mapping Sample.up (DELETE_restaurant Sample.id2)
      Sample.one_restaurant /\
  ~ Stated.error_mapping Sample.down (DELETE_restaurant Sample.id1)
      Sample.one_restaurant.
Proof.
  split; intros H.
  - destruct H as [Hresponse _].
    + right. exists Sample.id2. split; [by right; right|].
      vm_compute. reflexivity.
    + vm_compute in Hresponse. discriminate.
  - destruct H as [_ [err Hlogged]].
    + left. vm_compute. discriminate.
    + vm_compute in Hlogged. by apply elem_of_nil in Hlogged.
Qed.

(** C5, amended. For every request on any route, when the store call
    rejects (and, on GET /restaurants/:id, also when the identifier is not
    found), the handler catches the failure and writes HTTP 500 with the
    generic message 'Internal server error'; that is the response the
    client receives, unless the identifier check of PUT had already
    answered 400. On the GET and POST routes the error, and nothing else,
    is logged on the console. *)
Theorem store_failure_answered_500 e req c :
  let w := serve e req c in
  store_rejections (trace w) <> [] \/
    (exists id, req = GET_restaurant id /\ c !! id = None) ->
  last (res_writes (trace w)) =
    Some (500, Json (Message "Internal server error")) /\
  (client_response (trace w) =
     Some (500, Json (Message "Internal server error")) \/
   exists id body,
     req = PUT_restaurant id body /\
     (id = "" \/ body !! "id" <> Some (VStr id)) /\
     exists message,
       client_response (trace w) = Some (400, Json (Message message))) /\
  match req with
  | PUT_restaurant _ _ | DELETE_restaurant _ => True
  | _ =>
      exists err,
        console_lines (trace w) = [LogError err] /\
        (store_rejections (trace w) = [err] \/
         store_rejections (trace w) = [])
  end.
Proof.
  intros w Hfail. subst w.
  destruct req as [|id|body|id body|id|].
  - rewrite serve_get_all in *. cbn [trace] in *.
    destruct (find e 10 c).1 as [rs|err]; cbn in *.
    + destruct Hfail as [Hrej | (id & Hreq & _)]; [done | discriminate].
    + repeat split; eauto.
  - rewrite serve_get_one in *. cbn [trace] in *.
    destruct (findById e id c) as [r c'] eqn:Hfind. cbn [fst] in *.
    destruct r as [[doc|]|err]; cbn in *.
    + destruct Hfail as [Hrej | (id' & Hreq & Hid)]; [done|].
      injection Hreq as <-. unfold findById in Hfind.
      destruct (by_id_rejection e id); [discriminate|]. congruence.
    + repeat split; eauto.
    + repeat split; eauto.
  - destruct (serve_post_cases e body c)
      as [[_ Hrun] | (pre & f & post & _ & _ & _ & Hrun)];
      rewrite Hrun in *; cbn [trace] in *.
    + destruct (create e (create_fields body) c).1 as [doc|err]; cbn in *.
      * destruct Hfail as [Hrej | (id & Hreq & _)]; [done | discriminate].
      * repeat split; eauto.
    + cbn in Hfail.
      destruct Hfail as [Hrej | (id & Hreq & _)]; [done | discriminate].
  - rewrite serve_put in *. cbv zeta in *.
    destruct (ids_match id body) eqn:Hmatch;
      [|destruct (mismatch_message id body) as [message|]];
      destruct (findByIdAndUpdate e id (toUpdate body) c).1 as [doc|err];
      cbn -[toUpdate] in *;
      try (destruct Hfail as [Hrej | (id' & Hreq & _)]; [done | discriminate]).
    + repeat split; eauto.
    + split; [reflexivity|]. split; [|exact I].
      right. exists id, body. split; [reflexivity|]. split; [|eauto].
      by apply ids_match_false_inv.
  - rewrite serve_delete in *. cbn [trace] in *.
    destruct (findByIdAndRemove e id c).1 as [doc|err]; cbn in *.
    + destruct Hfail as [Hrej | (id' & Hreq & _)]; [done | discriminate].
    + repeat split; eauto.
  - cbn in Hfail.
    destruct Hfail as [Hrej | (id & Hreq & _)]; [done | discriminate].
Qed.

Lemma store_failure_answered_500_witness :
  let w := serve Sample.down GET_restaurants Sample.one_restaurant in
  last (res_writes (trace w)) =
    Some (500, Json (Message "Internal server error")) /\
  (client_response (trace w) =
     Some (500, Json (Message "Internal server error")) \/
   exists id body,
     GET_restaurants = PUT_restaurant id body /\
     (id = "" \/ body !! "id" <> Some (VStr id)) /\
     exists message,
       client_response (trace w) = Some (400, Json (Message message))) /\
  exists err,
    console_lines (trace w) = [LogError err] /\
    (store_rejections (trace w) = [err] \/
     store_rejections (trace w) = []).
Proof.
  apply (store_failure_answered_500 Sample.down GET_restaurants
           Sample.one_restaurant).
  left. vm_compute. discriminate.
Defined.

(** The store is down: what each route logs and answers. *)
Example store_down_get :
  trace (serve Sample.down GET_restaurants Sample.one_restaurant) =
  [StoreCall (Find 10) (Some (StoreFault "connection lost"));
   ConsoleError (LogError (StoreFault "connection lost"));
   ResWrite 500 (Json (Message "Internal server error"))].
Proof. reflexivity. Qed.

Example store_down_delete :
  trace (serve Sample.down (DELETE_restaurant Sample.id1)
           Sample.one_restaurant) =
  [StoreCall (FindByIdAndRemove Sample.id1)
     (Some (StoreFault "connection lost"));
   ResWrite 500 (Json (Message "Internal server error"))].
Proof. reflexivity. Qed.

Example store_down_put_wrong_id :
  res_writes
    (trace (serve Sample.down
              (PUT_restaurant Sample.id1 Sample.rename_wrong_id)
              Sample.one_restaurant)) =
  [(400, Json (Message
                 "Request path id (59074c7c057aaffaafb0da64) and request body id (59074c7c057aaffaafb0da65) must match"));
   (500, Json (Message "Internal server error"))].
Proof. reflexivity. Qed.

Example unmatched_route :
  trace (serve Sample.up Unmatched Sample.one_restaurant) =
  [ResWrite 404 (Json (Message "Not Found"))].
Proof. reflexivity. Qed.

(* ===================================================================== *)
(** ** Start and stop *)
(* ===================================================================== *)

(** Finds which step of a short trace the lookup hypothesis [H] at position
    [k] speaks of; the positions that hold another step are discarded. *)
Ltac at_step H k :=
  do 7 (try (destruct k as [|k]; [try discriminate H | cbn in H]));
  try discriminate H.

(** Splits a statement about a concrete trace into its clauses, settles
    the clauses that say a step is not in the trace, and uses the equations
    among the hypotheses. *)
Ltac clauses :=
  repeat match goal with
         | |- _ /\ _ => split
         | |- _ ∉ _ =>
             let Hin := fresh "Hin" in
             intros Hin; rewrite !elem_of_cons, elem_of_nil in Hin;
             decompose [or] Hin; first [discriminate | contradiction]
         | |- forall _, _ => intro
         end;
  simplify_eq; try reflexivity.

(** The three ways a start can go. *)
Lemma run_steps_cases cfg o databaseUrl port :
  let url := default (DATABASE_URL cfg) databaseUrl in
  let p := default (PORT cfg) port in
  run_steps cfg o databaseUrl port =
  match connect_err o, listen_err o with
  | Some err, _ =>
      [Connect url; Connected (Some err); Settle (Rejected err)]
  | None, Some err =>
      [Connect url; Connected None; Listen p; ListenError err; Disconnect;
       Settle (Rejected err)]
  | None, None =>
      [Connect url; Connected None; Listen p; Listening;
       ConsoleLog ("Your app is listening on port " +:+ pretty p);
       Settle (Resolved tt)]
  end.
Proof.
  destruct o as [[ce|] [le|] de cl]; reflexivity.
Qed.

(** C8. Start(storeAddress, port) first connects to the store. On a
    connection failure it fails with that error and never asks for a
    socket. On a successful connection it asks for a listening socket on
    the port; on a bind failure it disconnects from the store and fails
    with that error. It resolves only after the socket is accepting
    connections, and does resolve when both steps succeed. *)
Theorem runServer_connects_then_listens cfg o databaseUrl port :
  let t := run_steps cfg o databaseUrl port in
  let url := default (DATABASE_URL cfg) databaseUrl in
  let p := default (PORT cfg) port in
  t !! 0 = Some (Connect url) /\
  (forall err, connect_err o = Some err ->
     settlement t = Some (Rejected err) /\ forall q, Listen q ∉ t) /\
  (connect_err o = None ->
     t !! 2 = Some (Listen p) /\
     forall err, listen_err o = Some err ->
       t !! 3 = Some (ListenError err) /\ t !! 4 = Some Disconnect /\
       settlement t = Some (Rejected err)) /\
  (forall k, t !! k = Some (Settle (Resolved tt)) ->
     exists j, j < k /\ t !! j = Some Listening) /\
  (connect_err o = None -> listen_err o = None ->
     settlement t = Some (Resolved tt)).
Proof.
  intros t url p. subst t. rewrite run_steps_cases. fold url p.
  destruct (connect_err o) as [ce|], (listen_err o) as [le|]; clauses;
    match goal with
    | H : _ !! ?k = Some _ |- _ => at_step H k
    end.
  exists 3. split; [lia | reflexivity].
Qed.

Example run_all_well :
  run_steps Sample.cfg Sample.all_well None None =
  [Connect "mongodb://localhost/restaurants-app"; Connected None;
   Listen 8080; Listening;
   ConsoleLog "Your app is listening on port 8080"; Settle (Resolved tt)].
Proof. reflexivity. Qed.

Example run_port_taken :
  run_steps Sample.cfg Sample.port_taken (Some "mongodb://test") (Some 3000%N) =
  [Connect "mongodb://test"; Connected None; Listen 3000;
   ListenError (SocketError "EADDRINUSE"); Disconnect;
   Settle (Rejected (SocketError "EADDRINUSE"))].
Proof. reflexivity. Qed.

Example run_no_database :
  run_steps Sample.cfg Sample.no_database None None =
  [Connect "mongodb://localhost/restaurants-app";
   Connected (Some (StoreFault "ECONNREFUSED"));
   Settle (Rejected (StoreFault "ECONNREFUSED"))].
Proof. reflexivity. Qed.

(** The ways a stop can go. *)
Lemma close_steps_cases o s :
  close_steps o s =
  match disconnect_err o, s, close_err o with
  | Some err, _, _ =>
      [Disconnect; Disconnected (Some err); Settle (Rejected err)]
  | None, None, _ =>
      [Disconnect; Disconnected None; ConsoleLog "Closing server";
       Settle (Rejected (TypeError "Cannot read property 'close' of undefined"))]
  | None, Some _, Some err =>
      [Disconnect; Disconnected None; ConsoleLog "Closing server"; Close;
       Closed (Some err); Settle (Rejected err)]
  | None, Some _, None =>
      [Disconnect; Disconnected None; ConsoleLog "Closing server"; Close;
       Closed None; Settle (Resolved tt)]
  end.
Proof.
  destruct o as [ce le [de|] [cl|]], s as [h|]; reflexivity.
Qed.

(** C9, as stated, fails: on a started server with nothing going wrong the
    store disconnect is the first step, three steps before the socket
    close. *)
Lemma stop_order_fails :
  ~ Stated.stop_order Sample.all_well (Some 8080%N).
Proof.
  intros [Horder _].
  specialize (Horder 0 3 eq_refl eq_refl). lia.
Qed.

(** C9, amended. Stop() disconnects from the store first and asks the
    listening socket to close only after that disconnect has finished; the
    completion it returns does not resolve until both the store disconnect
    and the socket close have finished, and it does resolve when both
    succeed on a started server. *)
Theorem closeServer_disconnects_then_closes o s :
  let t := close_steps o s in
  t !! 0 = Some Disconnect /\
  (forall i, t !! i = Some Close ->
     exists j, j < i /\ t !! j = Some (Disconnected None)) /\
  (forall k, t !! k = Some (Settle (Resolved tt)) ->
     exists i j, i < k /\ j < k /\
       t !! i = Some (Disconnected None) /\ t !! j = Some (Closed None)) /\
  (disconnect_err o = None -> close_err o = None -> is_Some s ->
     settlement t = Some (Resolved tt)).
Proof.
  intros t. subst t. rewrite close_steps_cases.
  destruct (disconnect_err o) as [de|], s as [h|], (close_err o) as [cl|];
    clauses;
    try match goal with
        | H : is_Some None |- _ => by destruct H
        | H : _ !! ?k = Some _ |- _ => at_step H k
        end.
  - exists 1. split; [lia | reflexivity].
  - exists 1. split; [lia | reflexivity].
  - exists 1, 4. repeat split; lia.
Qed.

Example close_all_well :
  close_steps Sample.all_well (Some 8080%N) =
  [Disconnect; Disconnected None; ConsoleLog "Closing server"; Close;
   Closed None; Settle (Resolved tt)].
Proof. reflexivity. Qed.

Example close_before_start :
  close_steps Sample.all_well None =
  [Disconnect; Disconnected None; ConsoleLog "Closing server";
   Settle (Rejected (TypeError "Cannot read property 'close' of undefined"))].
Proof. reflexivity. Qed.

(* ===================================================================== *)
(** ** GET: what is read and what is answered *)
(* ===================================================================== *)

(** X1. GET /restaurants asks the store for ten documents at most. When
    the store answers, it responds 200 with the representations of stored
    documents, ten of them or all of them when the collection holds fewer,
    and leaves the collection as it was. *)
Theorem get_restaurants_at_most_ten e c :
  fault e = None ->
  let w := serve e GET_restaurants c in
  store_calls (trace w) = [Find 10] /\
  exists docs,
    client_response (trace w) =
      Some (200, Json (Restaurants (apiRepr <$> docs))) /\
    length docs = min 10 (size c) /\
    (forall doc, doc ∈ docs -> exists i, c !! i = Some doc) /\
    db w = c.
Proof.
  intros Hfault w. subst w. rewrite serve_get_all. unfold find.
  rewrite Hfault. cbn [fst db trace client_response].
  split; [reflexivity|].
  exists (take 10 ((map_to_list c).*2)). split; [reflexivity|].
  split; [by rewrite length_take, length_fmap, length_map_to_list|].
  split; [|reflexivity].
  intros doc Hdoc. apply subseteq_take in Hdoc.
  apply list_elem_of_fmap in Hdoc as [[i doc'] [-> Hin]].
  exists i. by apply elem_of_map_to_list.
Qed.

(** Twelve restaurants are stored, ten are returned. *)
Lemma get_restaurants_at_most_ten_witness :
  let w := serve Sample.up GET_restaurants Sample.twelve_restaurants in
  size Sample.twelve_restaurants = 12 /\
  store_calls (trace w) = [Find 10] /\
  exists docs,
    client_response (trace w) =
      Some (200, Json (Restaurants (apiRepr <$> docs))) /\
    length docs = 10 /\
    (forall doc, doc ∈ docs ->
       exists i, Sample.twelve_restaurants !! i = Some doc) /\
    db w = Sample.twelve_restaurants.
Proof.
  cbv zeta. split; [vm_compute; reflexivity|].
  destruct (get_restaurants_at_most_ten Sample.up Sample.twelve_restaurants
              eq_refl) as (Hcalls & docs & Hresponse & Hlength & Hin & Hdb).
  split; [exact Hcalls|]. exists docs.
  split; [exact Hresponse|]. split; [|split; [exact Hin | exact Hdb]].
  rewrite Hlength. vm_compute. reflexivity.
Defined.

Example get_twelve_returns_ten :
  match client_response
          (trace (serve Sample.up GET_restaurants Sample.twelve_restaurants))
  with
  | Some (200, Json (Restaurants reprs)) => length reprs = 10
  | _ => False
  end.
Proof. vm_compute. reflexivity. Qed.

Example get_one_returns_one :
  match client_response
          (trace (serve Sample.up GET_restaurants Sample.one_restaurant))
  with
  | Some (200, Json (Restaurants reprs)) => length reprs = 1
  | _ => False
  end.
Proof. vm_compute. reflexivity. Qed.

(** X2. GET /restaurants/:id answers 200 with the representation of the
    stored document exactly when the store answers, the driver takes the
    path value for an identifier and a document has it; in every other
    case it answers 500 with the generic message. It never changes the
    collection. *)
Theorem get_restaurant_200_or_500 e id c :
  let w := serve e (GET_restaurant id) c in
  ((exists doc,
      fault e = None /\ castable e id = true /\ c !! id = Some doc /\
      trace w = [StoreCall (FindById id) None;
                 ResWrite 200 (Json (Restaurant (apiRepr doc)))]) \/
   ((fault e <> None \/ castable e id = false \/ c !! id = None) /\
    client_response (trace w) =
      Some (500, Json (Message "Internal server error")))) /\
  db w = c.
Proof.
  intros w. subst w. rewrite serve_get_one. unfold findById, by_id_rejection.
  split; [|reflexivity]. cbn [trace].
  destruct (fault e) as [detail|] eqn:Hfault; cbn.
  - right. split; [by left | reflexivity].
  - destruct (castable e id) eqn:Hcast; cbn.
    + destruct (c !! id) as [doc|] eqn:Hid; cbn.
      * left. by exists doc.
      * right. split; [by right; right | reflexivity].
    + right. split; [by right; left | reflexivity].
Qed.

(* ===================================================================== *)
(** ** POST: what passes validation and what is stored *)
(* ===================================================================== *)

(** X3. The validation of POST /restaurants looks at key presence only: a
    body that has the keys name, borough and cuisine, whatever their
    values, is never answered 400; the handler logs no validation message
    and makes the one create call. *)
Theorem post_checks_presence_only e body c :
  (forall f, f ∈ ["name"; "borough"; "cuisine"] -> is_Some (body !! f)) ->
  let w := serve e (POST_restaurants body) c in
  store_calls (trace w) = [Create (create_fields body)] /\
  (forall code b, (code, b) ∈ res_writes (trace w) -> code <> 400) /\
  (forall message, LogText message ∉ console_lines (trace w)).
Proof.
  intros Hall w. subst w.
  destruct (serve_post_cases e body c)
    as [[_ ->] | (pre & f & post & Hsplit & _ & Hf & _)].
  - cbn [trace].
    destruct (create e (create_fields body) c).1 as [doc|err];
      cbn -[create_fields]; (split; [reflexivity|]); split.
    + intros code b Hin. apply list_elem_of_singleton in Hin. by simplify_eq.
    + intros message Hin. by apply elem_of_nil in Hin.
    + intros code b Hin. apply list_elem_of_singleton in Hin. by simplify_eq.
    + intros message Hin. apply list_elem_of_singleton in Hin. discriminate.
  - destruct (Hall f) as [v Hv]; [|congruence].
    change ["name"; "borough"; "cuisine"] with requiredFields.
    rewrite Hsplit. apply elem_of_app. right. apply list_elem_of_here.
Qed.

Lemma post_checks_presence_only_witness :
  let body : object :=
    {[ "name" := VNull; "borough" := VStr ""; "cuisine" := VArr [] ]} in
  let w := serve Sample.up (POST_restaurants body) Sample.one_restaurant in
  store_calls (trace w) = [Create (create_fields body)] /\
  (forall code b, (code, b) ∈ res_writes (trace w) -> code <> 400) /\
  (forall message, LogText message ∉ console_lines (trace w)).
Proof.
  apply (post_checks_presence_only Sample.up
           {[ "name" := VNull; "borough" := VStr ""; "cuisine" := VArr [] ]}
           Sample.one_restaurant).
  intros f Hf.
  apply elem_of_cons in Hf as [->|Hf]; [by eexists|].
  apply elem_of_cons in Hf as [->|Hf]; [by eexists|].
  apply list_elem_of_singleton in Hf as ->. by eexists.
Defined.

(** The object literal handed to [create]: the five properties, present
    or [undefined], and nothing else of the body. *)
Lemma create_fields_lookup body k :
  create_fields body !! k =
  if decide (k ∈ ["name"; "borough"; "cuisine"; "grades"; "address"])
  then Some (get body k) else None.
Proof.
  unfold create_fields. cbn [list_to_map foldr uncurry fst snd].
  rewrite !lookup_insert, lookup_empty.
  repeat case_decide; subst; try reflexivity;
    match goal with
    | H : ¬ _ ∈ _ |- _ => exfalso; apply H; rewrite !elem_of_cons; tauto
    | H : _ ∈ _ |- _ =>
        rewrite !elem_of_cons, elem_of_nil in H; exfalso;
        decompose [or] H; congruence
    end.
Qed.

(** A POST that passes validation on a store that answers, the assigned
    identifier being free. *)
Lemma serve_post_created e body c :
  fault e = None -> c !! fresh_id e = None ->
  (forall f, f ∈ requiredFields -> is_Some (body !! f)) ->
  let doc :=
    <["_id" := VStr (fresh_id e)]>
      (filter (fun kv => is_undefined kv.2 = false) (create_fields body)) in
  serve e (POST_restaurants body) c =
  {| db := <[fresh_id e := doc]> c;
     trace := [StoreCall (Create (create_fields body)) None;
               ResWrite 201 (Json (Restaurant (apiRepr doc)))] |}.
Proof.
  intros Hfault Hfree Hall doc.
  destruct (serve_post_cases e body c)
    as [[_ ->] | (pre & f & post & Hsplit & _ & Hf & _)].
  - unfold create. by rewrite Hfault, Hfree.
  - destruct (Hall f) as [v Hv]; [|congruence].
    rewrite Hsplit. apply elem_of_app. right. apply list_elem_of_here.
Qed.

(** X4. A POST /restaurants that passes validation, on a store that
    answers, adds one document under the identifier the store assigns and
    answers 201 with its representation. The document holds that
    identifier as [_id] and, of the body, the values of name, borough,
    cuisine, grades and address only: no other key of the body is stored,
    and the body cannot choose the identifier. *)
Theorem post_stores_whitelisted_fields e body c :
  fault e = None -> c !! fresh_id e = None ->
  (forall f, f ∈ ["name"; "borough"; "cuisine"] -> is_Some (body !! f)) ->
  let w := serve e (POST_restaurants body) c in
  exists doc,
    db w = <[fresh_id e := doc]> c /\
    client_response (trace w) = Some (201, Json (Restaurant (apiRepr doc))) /\
    forall k v,
      doc !! k = Some v <->
      (k = "_id" /\ v = VStr (fresh_id e)) \/
      (k ∈ ["name"; "borough"; "cuisine"; "grades"; "address"] /\
       body !! k = Some v /\ v <> VUndefined).
Proof.
  intros Hfault Hfree Hall w. subst w.
  rewrite (serve_post_created e body c Hfault Hfree Hall). cbn [db trace].
  eexists. split; [reflexivity|]. split; [reflexivity|].
  intros k v. rewrite lookup_insert_Some, map_lookup_filter_Some,
    create_fields_lookup. cbn [snd]. unfold get.
  split.
  - intros [[<- <-] | (Hk & Hv & Hdef)]; [by left|right].
    case_decide as Hin; [|discriminate].
    split; [exact Hin|]. injection Hv as <-.
    destruct (body !! k) as [v|]; cbn in *; [|discriminate].
    split; [reflexivity|]. by intros ->.
  - intros [[-> ->] | (Hin & Hv & Hdef)]; [by left|right].
    split.
    + intros <-. rewrite !elem_of_cons, elem_of_nil in Hin.
      decompose [or] Hin; first [discriminate | contradiction].
    + rewrite decide_True by exact Hin. rewrite Hv. cbn.
      split; [reflexivity|]. by destruct v.
Qed.

Lemma post_stores_whitelisted_fields_witness :
  let body : object :=
    {[ "name" := VStr "Test"; "borough" := VStr "Queens";
       "cuisine" := VStr "Diner"; "_id" := VStr Sample.id1;
       "owner" := VStr "me" ]} in
  let w := serve Sample.up (POST_restaurants body) Sample.one_restaurant in
  exists doc,
    db w = <[fresh_id Sample.up := doc]> Sample.one_restaurant /\
    client_response (trace w) = Some (201, Json (Restaurant (apiRepr doc))) /\
    forall k v,
      doc !! k = Some v <->
      (k = "_id" /\ v = VStr (fresh_id Sample.up)) \/
      (k ∈ ["name"; "borough"; "cuisine"; "grades"; "address"] /\
       body !! k = Some v /\ v <> VUndefined).
Proof.
  apply (post_stores_whitelisted_fields Sample.up
           {[ "name" := VStr "Test"; "borough" := VStr "Queens";
              "cuisine" := VStr "Diner"; "_id" := VStr Sample.id1;
              "owner" := VStr "me" ]}
           Sample.one_restaurant);
    [reflexivity | vm_compute; reflexivity |].
  intros f Hf.
  apply elem_of_cons in Hf as [->|Hf]; [by eexists|].
  apply elem_of_cons in Hf as [->|Hf]; [by eexists|].
  apply list_elem_of_singleton in Hf as ->. by eexists.
Defined.

(** X5. What POST /restaurants answered with 201 is what GET
    /restaurants/:id answers with 200 for the assigned identifier right
    after. *)
Theorem post_then_get e body c :
  fault e = None -> c !! fresh_id e = None ->
  castable e (fresh_id e) = true ->
  (forall f, f ∈ ["name"; "borough"; "cuisine"] -> is_Some (body !! f)) ->
  exists repr,
    client_response (trace (serve e (POST_restaurants body) c)) =
      Some (201, Json (Restaurant repr)) /\
    client_response
      (trace (serve_then e (POST_restaurants body)
                (GET_restaurant (fresh_id e)) c)) =
      Some (200, Json (Restaurant repr)).
Proof.
  intros Hfault Hfree Hcast Hall. unfold serve_then.
  rewrite (serve_post_created e body c Hfault Hfree Hall). cbn [db trace].
  eexists. split; [reflexivity|].
  rewrite serve_get_one. unfold findById.
  rewrite (by_id_rejection_None e _ Hfault Hcast). cbn [fst trace].
  by rewrite lookup_insert_eq.
Qed.

Lemma post_then_get_witness :
  let body : object :=
    {[ "name" := VStr "Test"; "borough" := VStr "Queens";
       "cuisine" := VStr "Diner" ]} in
  exists repr,
    client_response (trace (serve Sample.up (POST_restaurants body) ∅)) =
      Some (201, Json (Restaurant repr)) /\
    client_response
      (trace (serve_then Sample.up (POST_restaurants body)
                (GET_restaurant (fresh_id Sample.up)) ∅)) =
      Some (200, Json (Restaurant repr)).
Proof.
  apply (post_then_get Sample.up
           {[ "name" := VStr "Test"; "borough" := VStr "Queens";
              "cuisine" := VStr "Diner" ]} ∅);
    [reflexivity | reflexivity | vm_compute; reflexivity |].
  intros f Hf.
  apply elem_of_cons in Hf as [->|Hf]; [by eexists|].
  apply elem_of_cons in Hf as [->|Hf]; [by eexists|].
  apply list_elem_of_singleton in Hf as ->. by eexists.
Defined.

(* ===================================================================== *)
(** ** PUT and DELETE: what a later request sees *)
(* ===================================================================== *)

(** X6. After a PUT /restaurants/:id with matching identifiers on a stored
    document, answered 204, a GET of that identifier answers 200 with the
    representation of a document that has the body's value under each of
    name, borough, cuisine, address the body holds and the former value
    under every other key. *)
Theorem put_then_get e id body c doc :
  fault e = None -> castable e id = true -> c !! id = Some doc ->
  id <> "" -> body !! "id" = Some (VStr id) ->
  client_response (trace (serve e (PUT_restaurant id body) c)) =
    Some (204, NoBody) /\
  exists doc',
    trace (serve_then e (PUT_restaurant id body) (GET_restaurant id) c) =
      [StoreCall (FindById id) None;
       ResWrite 200 (Json (Restaurant (apiRepr doc')))] /\
    (forall k v, k ∈ ["name"; "borough"; "cuisine"; "address"] ->
       body !! k = Some v -> doc' !! k = Some v) /\
    (forall k, k ∉ ["name"; "borough"; "cuisine"; "address"] \/
               body !! k = None -> doc' !! k = doc !! k).
Proof.
  intros Hfault Hcast Hdoc Hid Hbody.
  assert (Hmatch : ids_match id body = true) by by apply ids_match_true.
  unfold serve_then. rewrite !serve_put, Hmatch. unfold findByIdAndUpdate.
  rewrite (by_id_rejection_None e id Hfault Hcast), Hdoc. cbn [fst snd db trace].
  split; [reflexivity|].
  exists (toUpdate body ∪ doc). split; [|split].
  - rewrite serve_get_one. unfold findById.
    rewrite (by_id_rejection_None e id Hfault Hcast). cbn [fst trace].
    by rewrite lookup_insert_eq.
  - intros k v Hk Hv. apply lookup_union_Some_l.
    by rewrite toUpdate_lookup, decide_True.
  - intros k Hk. rewrite lookup_union, toUpdate_lookup.
    destruct Hk as [Hk|Hk].
    + by rewrite decide_False, (left_id_L None _).
    + case_decide; by rewrite ?Hk, (left_id_L None _).
Qed.

Lemma put_then_get_witness :
  client_response
    (trace (serve Sample.up (PUT_restaurant Sample.id1 Sample.rename)
              Sample.one_restaurant)) = Some (204, NoBody) /\
  exists doc',
    trace (serve_then Sample.up (PUT_restaurant Sample.id1 Sample.rename)
             (GET_restaurant Sample.id1) Sample.one_restaurant) =
      [StoreCall (FindById Sample.id1) None;
       ResWrite 200 (Json (Restaurant (apiRepr doc')))] /\
    (forall k v, k ∈ ["name"; "borough"; "cuisine"; "address"] ->
       Sample.rename !! k = Some v -> doc' !! k = Some v) /\
    (forall k, k ∉ ["name"; "borough"; "cuisine"; "address"] \/
               Sample.rename !! k = None -> doc' !! k = Sample.diner !! k).
Proof.
  apply (put_then_get Sample.up Sample.id1 Sample.rename
           Sample.one_restaurant Sample.diner);
    [reflexivity | vm_compute; reflexivity | vm_compute; reflexivity
    | discriminate | vm_compute; reflexivity].
Defined.

(** X7. PUT /restaurants/:id is idempotent: the same request served a
    second time writes the same on the response and leaves the collection
    as the first left it, whatever the identifiers and the store do. *)
Theorem put_twice e id body c :
  let once := serve e (PUT_restaurant id body) c in
  let twice :=
    serve_then e (PUT_restaurant id body) (PUT_restaurant id body) c in
  db twice = db once /\
  res_writes (trace twice) = res_writes (trace once).
Proof.
  intros once twice. subst once twice. unfold serve_then.
  rewrite !serve_put. cbv zeta.
  destruct (ids_match id body);
    [|destruct (mismatch_message id body)]; cbn [db trace];
    [| |by split].
  all: unfold findByIdAndUpdate;
    destruct (by_id_rejection e id) as [err|]; cbn [fst snd];
    [by split|];
    destruct (c !! id) as [doc|] eqn:Hdoc; cbn [fst snd];
    [|rewrite Hdoc; by split];
    rewrite lookup_insert_eq; cbn [fst snd]; (split; [|reflexivity]);
    rewrite insert_insert_eq; f_equal;
    by rewrite (assoc_L (∪)), (idemp_L (∪)).
Qed.

(** X8. After a DELETE /restaurants/:id on a store that answers, no
    document has that identifier and every other document is as it was; a
    GET of the identifier answers 500, and a second DELETE answers 204
    again and changes nothing. *)
Theorem delete_then_get_or_delete e id c :
  fault e = None -> castable e id = true ->
  let c1 := db (serve e (DELETE_restaurant id) c) in
  c1 !! id = None /\
  (forall i, i <> id -> c1 !! i = c !! i) /\
  client_response
    (trace (serve_then e (DELETE_restaurant id) (GET_restaurant id) c)) =
    Some (500, Json (Message "Internal server error")) /\
  res_writes
    (trace (serve_then e (DELETE_restaurant id) (DELETE_restaurant id) c)) =
    [(204, NoBody)] /\
  db (serve_then e (DELETE_restaurant id) (DELETE_restaurant id) c) = c1.
Proof.
  intros Hfault Hcast c1. subst c1. unfold serve_then.
  rewrite !serve_delete, serve_get_one. cbn [db trace].
  unfold findByIdAndRemove, findById.
  rewrite !(by_id_rejection_None e id Hfault Hcast). cbn [fst snd].
  rewrite lookup_delete_eq. repeat split.
  - intros i Hi. by rewrite lookup_delete_ne.
  - apply delete_id, lookup_delete_eq.
Qed.

Lemma delete_then_get_or_delete_witness :
  let c1 := db (serve Sample.up (DELETE_restaurant Sample.id1)
                  Sample.one_restaurant) in
  c1 !! Sample.id1 = None /\
  (forall i, i <> Sample.id1 -> c1 !! i = Sample.one_restaurant !! i) /\
  client_response
    (trace (serve_then Sample.up (DELETE_restaurant Sample.id1)
              (GET_restaurant Sample.id1) Sample.one_restaurant)) =
    Some (500, Json (Message "Internal server error")) /\
  res_writes
    (trace (serve_then Sample.up (DELETE_restaurant Sample.id1)
              (DELETE_restaurant Sample.id1) Sample.one_restaurant)) =
    [(204, NoBody)] /\
  db (serve_then Sample.up (DELETE_restaurant Sample.id1)
        (DELETE_restaurant Sample.id1) Sample.one_restaurant) = c1.
Proof.
  apply (delete_then_get_or_delete Sample.up Sample.id1
           Sample.one_restaurant);
    [reflexivity | vm_compute; reflexivity].
Defined.

(** A body id that matches the path, or that gave a message, can be
    converted to a string. *)
Lemma ids_match_printable id body :
  ids_match id body = true ->
  ~ unprintable (default VUndefined (body !! "id")).
Proof.
  intros Hmatch. apply ids_match_true in Hmatch as [_ ->]. inversion 1.
Qed.

Lemma mismatch_message_printable id body message :
  mismatch_message id body = Some message ->
  ~ unprintable (default VUndefined (body !! "id")).
Proof.
  intros Hmessage Hthrows.
  apply mismatch_message_None with (id := id) in Hthrows. congruence.
Qed.

(** X9. A PUT /restaurants/:id whose body holds none of name, borough,
    cuisine, address leaves the collection exactly as it was: the update
    it sends has an empty [$set]; and it sends none when the body id
    cannot be converted to a string, where the handler throws. *)
Theorem put_without_updateable_fields e id body c :
  (forall k, k ∈ ["name"; "borough"; "cuisine"; "address"] ->
     body !! k = None) ->
  let w := serve e (PUT_restaurant id body) c in
  db w = c /\
  (store_calls (trace w) = [FindByIdAndUpdate id ∅] /\
   ~ unprintable (default VUndefined (body !! "id")) \/
   store_calls (trace w) = [] /\
   unprintable (default VUndefined (body !! "id"))).
Proof.
  intros Hnone w. subst w.
  assert (Hempty : toUpdate body = ∅).
  { apply map_eq. intros k. rewrite toUpdate_lookup, lookup_empty.
    case_decide as Hk; [by apply Hnone | reflexivity]. }
  assert (Hsame : (findByIdAndUpdate e id ∅ c).2 = c).
  { unfold findByIdAndUpdate.
    destruct (by_id_rejection e id); cbn [snd]; [reflexivity|].
    destruct (c !! id) as [doc|] eqn:Hdoc; cbn [snd]; [|reflexivity].
    rewrite (left_id_L ∅ (∪)). by apply insert_id. }
  rewrite serve_put, Hempty. cbv zeta.
  destruct (ids_match id body) eqn:Hmatch;
    [|destruct (mismatch_message id body) as [message|] eqn:Hmessage];
    cbn [db trace]; (split; [done|]).
  - left. split; [|by apply (ids_match_printable id)].
    by destruct (findByIdAndUpdate e id ∅ c).1.
  - left. split; [|by apply (mismatch_message_printable id body message)].
    by destruct (findByIdAndUpdate e id ∅ c).1.
  - right. split; [reflexivity|]. by apply mismatch_message_None in Hmessage.
Qed.

Lemma put_without_updateable_fields_witness :
  let body : object := {[ "id" := VStr Sample.id1; "grades" := VArr [] ]} in
  let w := serve Sample.up (PUT_restaurant Sample.id1 body)
             Sample.one_restaurant in
  db w = Sample.one_restaurant /\
  (store_calls (trace w) = [FindByIdAndUpdate Sample.id1 ∅] /\
   ~ unprintable (default VUndefined (body !! "id")) \/
   store_calls (trace w) = [] /\
   unprintable (default VUndefined (body !! "id"))).
Proof.
  apply (put_without_updateable_fields Sample.up Sample.id1
           {[ "id" := VStr Sample.id1; "grades" := VArr [] ]}
           Sample.one_restaurant).
  intros k Hk. rewrite !elem_of_cons, elem_of_nil in Hk.
  decompose [or] Hk; subst; first [reflexivity | contradiction].
Defined.

(* ===================================================================== *)
(** ** All routes: what a handler writes, logs and changes *)
(* ===================================================================== *)

Lemma serve_unmatched e c :
  serve e Unmatched c =
  {| db := c; trace := [ResWrite 404 (Json (Message "Not Found"))] |}.
Proof. reflexivity. Qed.

(** Splits on the route of [req] and on how its store call settled. *)
Ltac by_route e req c :=
  let id := fresh "id" in
  let body := fresh "body" in
  destruct req as [|id|body|id body|id|];
  [ rewrite ?serve_get_all; cbv zeta;
    destruct (find e 10 c).1 as [?|?]
  | rewrite ?serve_get_one; cbv zeta;
    destruct (findById e id c).1 as [[?|]|?]
  | destruct (serve_post_cases e body c) as [[_ ->]|(?&?&?&_&_&_&->)];
    [cbv zeta; destruct (create e (create_fields body) c).1 as [?|?] | ]
  | rewrite ?serve_put; cbv zeta; destruct (ids_match id body) eqn:?;
    [|destruct (mismatch_message id body) as [?|] eqn:?];
    destruct (findByIdAndUpdate e id (toUpdate body) c).1 as [?|?]
  | rewrite ?serve_delete; cbv zeta;
    destruct (findByIdAndRemove e id c).1 as [?|?]
  | rewrite ?serve_unmatched ].

(** Settles a membership hypothesis [H] in a list written out. *)
Ltac in_list H :=
  cbn in H; rewrite ?elem_of_cons, ?elem_of_nil in H;
  decompose [or] H; try contradiction; simplify_eq.

(** A store call that rejects leaves the collection as it was. *)
Lemma create_rejected e fields c err :
  (create e fields c).1 = Rejected err -> (create e fields c).2 = c.
Proof.
  unfold create. destruct (fault e); [done|].
  by destruct (c !! fresh_id e).
Qed.

Lemma findByIdAndUpdate_rejected e id set c err :
  (findByIdAndUpdate e id set c).1 = Rejected err ->
  (findByIdAndUpdate e id set c).2 = c.
Proof.
  unfold findByIdAndUpdate. destruct (by_id_rejection e id); [done|].
  by destruct (c !! id).
Qed.

Lemma findByIdAndRemove_rejected e id c err :
  (findByIdAndRemove e id c).1 = Rejected err ->
  (findByIdAndRemove e id c).2 = c.
Proof.
  unfold findByIdAndRemove. by destruct (by_id_rejection e id).
Qed.

(** X10. A request changes the collection only through one create,
    update-by-id or delete-by-id call that the store did not reject: the
    two GET routes, the catch-all, a POST stopped by validation and every
    request whose store call rejects leave all documents as they were. *)
Theorem collection_changes_only_by_a_resolved_write e req c :
  let w := serve e req c in
  db w = c \/
  (store_rejections (trace w) = [] /\
   exists q, store_calls (trace w) = [q] /\
     ((exists fields, q = Create fields) \/
      (exists id set, q = FindByIdAndUpdate id set) \/
      (exists id, q = FindByIdAndRemove id))).
Proof.
  intros w. subst w. destruct req as [|id|body|id body|id|].
  - left. by rewrite serve_get_all.
  - left. by rewrite serve_get_one.
  - destruct (serve_post_cases e body c)
      as [[_ ->]|(?&?&?&_&_&_&->)]; [|by left]. cbn [db trace].
    destruct (create e (create_fields body) c).1 as [doc|err] eqn:Hcreate.
    + right. split; [reflexivity|]. eexists. split; [reflexivity|]. eauto.
    + left. by eapply create_rejected.
  - rewrite serve_put. cbv zeta.
    destruct (ids_match id body);
      [|destruct (mismatch_message id body) as [message|]];
      cbn [db trace]; [| |by left].
    all: destruct (findByIdAndUpdate e id (toUpdate body) c).1
           as [doc|err] eqn:Hupdate;
      [|left; by eapply findByIdAndUpdate_rejected];
      right; (split; [reflexivity|]); eexists; (split; [reflexivity|]);
      eauto.
  - rewrite serve_delete. cbn [db trace].
    destruct (findByIdAndRemove e id c).1 as [doc|err] eqn:Hremove.
    + right. split; [reflexivity|]. eexists. split; [reflexivity|]. eauto.
    + left. by eapply findByIdAndRemove_rejected.
  - by left.
Qed.


(** X12. The statuses of each route: 200 or 500 on the two GET routes;
    201, 400 or 500 on POST; 204, 400 or 500 on PUT; 204 or 500 on DELETE;
    404 on every other path, and on no route of /restaurants. *)
Theorem statuses_by_route e req c code b :
  (code, b) ∈ res_writes (trace (serve e req c)) ->
  code ∈ match req with
         | GET_restaurants | GET_restaurant _ => [200; 500]
         | POST_restaurants _ => [201; 400; 500]
         | PUT_restaurant _ _ => [204; 400; 500]
         | DELETE_restaurant _ => [204; 500]
         | Unmatched => [404]
         end.
Proof.
  by_route e req c; intros Hin; in_list Hin; repeat constructor.
Qed.

Lemma statuses_by_route_witness :
  404 ∈ [404].
Proof.
  apply (statuses_by_route Sample.up Unmatched Sample.one_restaurant 404
           (Json (Message "Not Found"))).
  apply list_elem_of_here.
Defined.

(** X13. Whenever the client receives a 400, the handler has first logged
    on the console the very message the response carries, as plain text on
    POST and under the key message on PUT. *)
Theorem bad_request_is_logged e req c b :
  client_response (trace (serve e req c)) = Some (400, b) ->
  exists message,
    trace (serve e req c) !! 0 = Some (ConsoleError (LogText message)) /\
    trace (serve e req c) !! 1 = Some (ResWrite 400 b) /\
    (b = PlainText message \/ b = Json (Message message)).
Proof.
  by_route e req c; intros Hresponse; cbn in Hresponse; simplify_eq;
    eexists; (split; [reflexivity|]); (split; [reflexivity|]); eauto.
Qed.

Lemma bad_request_is_logged_witness :
  exists message,
    trace (serve Sample.up (POST_restaurants Sample.no_borough) ∅) !! 0 =
      Some (ConsoleError (LogText message)) /\
    trace (serve Sample.up (POST_restaurants Sample.no_borough) ∅) !! 1 =
      Some (ResWrite 400 (PlainText "Missing `borough` in request body")) /\
    (PlainText "Missing `borough` in request body" = PlainText message \/
     PlainText "Missing `borough` in request body" = Json (Message message)).
Proof.
  apply (bad_request_is_logged Sample.up (POST_restaurants Sample.no_borough)
           ∅ (PlainText "Missing `borough` in request body")).
  reflexivity.
Defined.

(** X14. PUT /restaurants/:id writes a 400 exactly when the identifiers
    do not match (the path identifier is empty or the body's id is not the
    string of the path) and the body id can be converted to a string. A
    non-empty path identifier with the same string in the body is never
    answered 400; a body id of another type, a number say, is, unless it is
    an object with a key toString or an array holding one. *)
Theorem put_400_exactly_on_mismatch e id body c :
  (exists b, (400, b) ∈ res_writes (trace (serve e (PUT_restaurant id body) c)))
  <-> (id = "" \/ body !! "id" <> Some (VStr id)) /\
      ~ unprintable (default VUndefined (body !! "id")).
Proof.
  rewrite serve_put. cbv zeta.
  destruct (ids_match id body) eqn:Hmatch;
    [|destruct (mismatch_message id body) as [message|] eqn:Hmessage];
    cbn [trace].
  - apply ids_match_true in Hmatch as [Hid Hbody]. split.
    + intros [b Hin].
      destruct (findByIdAndUpdate e id (toUpdate body) c).1; in_list Hin.
    + intros [[?|?] _]; congruence.
  - split.
    + intros _. split; [by apply ids_match_false_inv|].
      by apply (mismatch_message_printable id body message).
    + intros _. eexists. cbn. apply list_elem_of_here.
  - split.
    + intros [b Hin]. in_list Hin.
    + intros [_ Hprintable]. by apply mismatch_message_None in Hmessage.
Qed.

(* ===================================================================== *)
(** ** Start and stop: settlements and the server variable *)
(* ===================================================================== *)

(** X15. The promise returned by [runServer], and the one returned by
    [closeServer], settles exactly once in every run, and the settlement is
    the last thing the run does. *)
Theorem lifecycle_settles_once cfg o databaseUrl port s :
  (exists r,
     settlements (run_steps cfg o databaseUrl port) = [r] /\
     last (run_steps cfg o databaseUrl port) = Some (Settle r)) /\
  (exists r,
     settlements (close_steps o s) = [r] /\
     last (close_steps o s) = Some (Settle r)).
Proof.
  rewrite run_steps_cases, close_steps_cases. split.
  - destruct (connect_err o), (listen_err o); eexists; split; reflexivity.
  - destruct (disconnect_err o), s, (close_err o);
      eexists; split; reflexivity.
Qed.

(** X16. On a port that [app.listen] takes (0 to 65535), [runServer]
    assigns the variable [server] as soon as the store connection has
    succeeded, to the server asked to listen on the port given or else on
    [PORT], whether or not the bind then fails; on a connection failure it
    leaves the variable as it was. *)
Theorem runServer_assigns_server cfg o databaseUrl port p :
  listen_accepts (default (PORT cfg) port) = true ->
  server (runServer cfg o databaseUrl port p).2 =
  match connect_err o with
  | None => Some (default (PORT cfg) port)
  | Some _ => server p
  end.
Proof.
  intros _. destruct o as [[ce|] [le|] de cl]; reflexivity.
Qed.

(** The port is taken: the bind fails and [server] is assigned all the
    same. *)
Lemma runServer_assigns_server_witness :
  server (runServer Sample.cfg Sample.port_taken None (Some 3000%N)
            {| server := None; steps := [] |}).2 = Some 3000%N.
Proof.
  apply (runServer_assigns_server Sample.cfg Sample.port_taken None
           (Some 3000%N) {| server := None; steps := [] |}).
  reflexivity.
Defined.

(** X17. [closeServer] never closes the socket when the store disconnect
    rejects: the promise rejects with that error and no close is asked
    for. Called while [server] is still [undefined] it disconnects the
    store all the same and then rejects. It never changes the variable
    [server]. *)
Theorem closeServer_failures o s :
  let t := close_steps o s in
  (forall err, disconnect_err o = Some err ->
     (Close ∉ t) /\ settlement t = Some (Rejected err)) /\
  (s = None ->
     t !! 0 = Some Disconnect /\ (Close ∉ t) /\
     exists err, settlement t = Some (Rejected err)) /\
  (forall p, server (closeServer o p).2 = server p).
Proof.
  intros t. subst t. rewrite close_steps_cases. split; [|split].
  - intros err ->. clauses.
  - intros ->. destruct (disconnect_err o); clauses; by eexists.
  - intros [[h|] t].
    + destruct o as [ce le [de|] [cl|]]; reflexivity.
    + destruct o as [ce le [de|] cl]; reflexivity.
Qed.



Example start_then_stop_all_well :
  steps (start_then_stop Sample.cfg Sample.all_well None None) =
  [Connect "mongodb://localhost/restaurants-app"; Connected None;
   Listen 8080; Listening;
   ConsoleLog "Your app is listening on port 8080"; Settle (Resolved tt);
   Disconnect; Disconnected None; ConsoleLog "Closing server"; Close;
   Closed None; Settle (Resolved tt)].
Proof. reflexivity. Qed.
